(** * Car_Shop backend: token lifecycle of the authentication layer

    A shallow embedding of
      - [backend/config/jwt.js]                (token codec),
      - [backend/controllers/authController.js] (register, login, refresh, logout
        and the in-memory list of valid refresh tokens),
      - [backend/middleware/auth.js]           (auth gate),
      - [backend/routes/auth.js]               (validation rules of the auth routes),
    followed by the properties of the token lifecycle.

    Conventions.  JavaScript strings are [string]s (sequences of one-byte
    characters); a value that may be [undefined] is an [option].  The clock is
    read once per request, in seconds, as [jsonwebtoken] does
    ([Math.floor(Date.now() / 1000)]).  The libraries the handlers call
    ([jsonwebtoken], [bcryptjs], the validators of [express-validator]) and
    the database server are records of functions the development is
    parametrised by. *)

From Stdlib Require Import ZArith List String Ascii Bool Lia.
Import ListNotations.

Set Warnings "-register-all".

Local Open Scope string_scope.
Local Open Scope Z_scope.

(* ================================================================== *)
(** ** JavaScript primitives used by the handlers *)

Module Js.

(** Truthiness of a string: every string but the empty one. *)
Definition truthy (s : string) : bool :=
  match s with
  | EmptyString => false
  | String _ _ => true
  end.

(** Truthiness of a string that may be [undefined]. *)
Definition truthy_opt (o : option string) : bool :=
  match o with
  | Some s => truthy s
  | None => false
  end.

(** [a || b] for a possibly undefined string [a] and a string [b]. *)
Definition or_default (a : option string) (b : string) : string :=
  match a with
  | Some s => if truthy s then s else b
  | None => b
  end.

(** [s.split(sep)] for a one-character separator. *)
Fixpoint split (sep : ascii) (s : string) : list string :=
  match s with
  | EmptyString => [EmptyString]
  | String c r =>
      if Ascii.eqb c sep then EmptyString :: split sep r
      else match split sep r with
           | w :: ws => String c w :: ws
           | [] => [String c EmptyString]
           end
  end.

(** [xs[i]] on the result of a split: [undefined] out of range. *)
Definition at_index (xs : list string) (i : nat) : option string :=
  nth_error xs i.

(** An array of strings.  [items] are the indexed elements ([None] is a
    hole, which an assignment past the end leaves behind); [props] are the
    properties of the array object whose key is not an array index, as an
    assignment [a[-1] = v] creates: they do not count in [length] and no
    array method looks at them. *)
Record array : Type := mkArray
  { items : list (option string);
    props : list (Z * string) }.

Definition empty : array := {| items := []; props := [] |}.

Definition slot_is (t : string) (x : option string) : bool :=
  match x with
  | Some s => String.eqb s t
  | None => false
  end.

(** [a.push(v)] *)
Definition push (a : array) (v : string) : array :=
  {| items := items a ++ [Some v]; props := props a |}.

(** [a.includes(t)] for a string [t] *)
Definition includes (a : array) (t : string) : bool :=
  existsb (slot_is t) (items a).

Fixpoint index_from (i : Z) (l : list (option string)) (t : string) : Z :=
  match l with
  | [] => -1
  | x :: r => if slot_is t x then i else index_from (i + 1) r t
  end.

(** [a.indexOf(t)]: the first index holding [t], or [-1]. *)
Definition indexOf (a : array) (t : string) : Z :=
  index_from 0 (items a) t.

Fixpoint write_at (n : nat) (v : string) (l : list (option string))
  : list (option string) :=
  match n, l with
  | O, [] => [Some v]
  | O, _ :: r => Some v :: r
  | S k, [] => None :: write_at k v []
  | S k, x :: r => x :: write_at k v r
  end.

(** [a[i] = v] for an integer [i]: an element when [0 <= i] (the array grows,
    with holes, when [i] is past the end), a plain property otherwise. *)
Definition assign (a : array) (i : Z) (v : string) : array :=
  if i <? 0
  then {| items := items a;
          props := (i, v) :: filter (fun kv => negb (fst kv =? i)) (props a) |}
  else {| items := write_at (Z.to_nat i) v (items a); props := props a |}.

(** [a.filter(token => token !== t)]: a fresh array; holes are skipped and
    the non-index properties are not carried over. *)
Definition filter_neq (a : array) (t : string) : array :=
  {| items := List.filter (fun x => match x with
                                 | Some s => negb (String.eqb s t)
                                 | None => false
                                 end) (items a);
     props := [] |}.

End Js.

(* ================================================================== *)
(** ** The [jsonwebtoken] library, as the code uses it *)

(** The object handed to [jwt.sign]: [{ id, username, email, role }].  An
    [id] that is [undefined] does not make it into the token. *)
Record Payload : Type := mkPayload
  { id : option Z;
    username : string;
    email : string;
    role : string }.

(** What [jwt.verify] returns: the signed claims, with the issue time and
    the expiry [jwt.sign] added. *)
Record Decoded : Type := mkDecoded
  { claims : Payload;
    iat : Z;
    exp : Z }.

(** The [name] of the error [jwt.verify] throws. *)
Inductive JwtError : Type :=
| TokenExpiredError
| JsonWebTokenError
| NotBeforeError.

(** [jwt_sign payload secret expiresIn now] is [jwt.sign(payload, secret,
    { expiresIn })] at clock [now]; [jwt_verify token secret now] is
    [jwt.verify(token, secret)] at clock [now], [inl] for a throw. *)
Record JwtLib : Type := mkJwtLib
  { jwt_sign : Payload -> string -> Z -> Z -> string;
    jwt_verify : string -> string -> Z -> JwtError + Decoded }.

(** What the library documents for a token it signed itself: verification
    under the signing secret returns the claims until the expiry, and throws
    [TokenExpiredError] from the expiry on. *)
Definition jwt_roundtrip (J : JwtLib) : Prop :=
  forall p k e t now,
    jwt_verify J (jwt_sign J p k e t) k now =
    if now <? t + e
    then inr {| claims := p; iat := t; exp := t + e |}
    else inl TokenExpiredError.

(** Verification under another secret throws [JsonWebTokenError]
    (invalid signature). *)
Definition jwt_key_bound (J : JwtLib) : Prop :=
  forall p k k' e t now,
    k <> k' ->
    jwt_verify J (jwt_sign J p k e t) k' now = inl JsonWebTokenError.

(* ================================================================== *)
(** ** [backend/config/jwt.js] *)

(** [process.env] *)
Definition Env : Type := string -> option string.

Definition no_env : Env := fun _ => None.

Definition ACCESS_TOKEN_SECRET (env : Env) : string :=
  Js.or_default (env "JWT_ACCESS_SECRET") "TODO".

Definition REFRESH_TOKEN_SECRET (env : Env) : string :=
  Js.or_default (env "JWT_REFRESH_SECRET") "TODO".

(** ['15m'] and ['7d'], in seconds. *)
Definition ACCESS_TOKEN_EXPIRES : Z := 15 * 60.
Definition REFRESH_TOKEN_EXPIRES : Z := 7 * 24 * 60 * 60.

Record TokenPair : Type := mkTokenPair
  { accessToken : string;
    refreshToken : string }.

Section Codec.

Variable J : JwtLib.
Variable env : Env.

Definition createTokenPair (now : Z) (userPayload : Payload) : TokenPair :=
  {| accessToken :=
       jwt_sign J userPayload (ACCESS_TOKEN_SECRET env) ACCESS_TOKEN_EXPIRES now;
     refreshToken :=
       jwt_sign J userPayload (REFRESH_TOKEN_SECRET env) REFRESH_TOKEN_EXPIRES now |}.

(** The [try { ... } catch (error) { throw error; }] rethrows unchanged. *)
Definition validateAccessToken (now : Z) (token : string) : JwtError + Decoded :=
  jwt_verify J token (ACCESS_TOKEN_SECRET env) now.

Definition validateRefreshToken (now : Z) (token : string) : JwtError + Decoded :=
  jwt_verify J token (REFRESH_TOKEN_SECRET env) now.

End Codec.

(* ================================================================== *)
(** ** HTTP responses *)

(** A JSON value, as handed to [res.json]. *)
Inductive json : Type :=
| JNum (z : Z)
| JStr (s : string)
| JBool (b : bool)
| JArr (xs : list json)
| JObj (fields : list (string * json)).

(** The keys of an object, in order; none for the other values. *)
Definition keys (j : json) : list string :=
  match j with
  | JObj fields => map fst fields
  | _ => []
  end.

(** [obj.k], [undefined] when there is no such key. *)
Fixpoint assoc (k : string) (fields : list (string * json)) : option json :=
  match fields with
  | [] => None
  | (k', v) :: r => if String.eqb k' k then Some v else assoc k r
  end.

Definition field (k : string) (j : json) : option json :=
  match j with
  | JObj fields => assoc k fields
  | _ => None
  end.

Record CookieOptions : Type := mkCookieOptions
  { httpOnly : bool;
    secure : bool;
    sameSite : string;
    maxAge : Z }.

(** [res.cookie(name, value, options)] and [res.clearCookie(name)]. *)
Inductive CookieOp : Type :=
| SetCookie (name value : string) (options : CookieOptions)
| ClearCookie (name : string).

Record Response : Type := mkResponse
  { status : Z;
    body : json;
    cookies : list CookieOp }.

(** [res.status(code).json({ message })] *)
Definition reply (code : Z) (message : string) : Response :=
  {| status := code; body := JObj [("message", JStr message)]; cookies := [] |}.

(* ================================================================== *)
(** ** [bcryptjs] and the user table *)

(** [bcrypt.hash(password, saltRounds)] and [bcrypt.compare(password, hash)]. *)
Record BcryptLib : Type := mkBcryptLib
  { bcrypt_hash : string -> Z -> string;
    bcrypt_compare : string -> string -> bool }.

(** A row of the [users] table. *)
Record UserRow : Type := mkUserRow
  { user_id : Z;
    user_username : string;
    user_email : string;
    user_password : string;
    user_role : string }.

(** Modelled from the spec: the [users] table of the server behind the
    driver (the SQL server and the schema of [users] are not part of the
    repository).  The table is a list of rows; [=] on a column is the
    case-sensitive exact match the spec names; a statement the server
    refuses (the handlers answer 500) is outside the model. *)
Definition Table : Type := list UserRow.

(** The rows of the recordset for [... FROM users WHERE username = ? OR
    email = ?] with parameters [[u, e]]. *)
Definition select_where_username_or_email (t : Table) (u e : string) : Table :=
  List.filter
    (fun r => String.eqb (user_username r) u || String.eqb (user_email r) e) t.

(** [config/database]: the repository has two versions of [executeQuery],
    which differ in what they hand back: [result.recordset || []], or
    [result.recordset] as it is. *)
Inductive DatabaseModule : Type :=
| RecordsetOrEmpty
| RecordsetAsIs.

(** What is not in the repository: the driver and the server behind
    [request.query].  [insert_recordset] is the [recordset] of the driver's
    result for the [INSERT] ([None] is [undefined], as for a statement that
    returns no rows); [insert_id] is the [id] the server gives the new row. *)
Record Database : Type := mkDatabase
  { db_module : DatabaseModule;
    insert_recordset : option Table;
    insert_id : Table -> Z }.

(** [executeQuery], from the [recordset] of the driver's result to what
    [await query(...)] evaluates to ([None] is [undefined]).  An array is
    truthy, so [recordset || []] is the recordset when there is one.  The
    [catch] rethrows; a statement the server refuses is outside the model.
    For a [SELECT] the recordset is the array of the rows found, which both
    versions hand back as it is. *)
Definition executeQuery (m : DatabaseModule) (recordset : option Table)
  : option Table :=
  match m with
  | RecordsetOrEmpty =>
      Some (match recordset with Some rows => rows | None => [] end)
  | RecordsetAsIs => recordset
  end.

(** The table after [INSERT INTO users (username, email, password, role)
    VALUES (?, ?, ?, ?)] with parameters [[u, e, p, r]]. *)
Definition insert_user (D : Database) (t : Table) (u e p r : string) : Table :=
  (t ++ [{| user_id := insert_id D t; user_username := u; user_email := e;
            user_password := p; user_role := r |}])%list.

(* ================================================================== *)
(** ** [backend/controllers/authController.js] *)

(** The state the handlers share: [validRefreshTokens] and the [users]
    table. *)
Record Server : Type := mkServer
  { validRefreshTokens : Js.array;
    users : Table }.

(** The registry operations, as the handlers write them inline. *)
Module Registry.

(** [validRefreshTokens.push(token)] (register, login) *)
Definition record_token (reg : Js.array) (token : string) : Js.array :=
  Js.push reg token.

(** [validRefreshTokens.includes(token)] (refresh) *)
Definition isValid (reg : Js.array) (token : string) : bool :=
  Js.includes reg token.

(** [const tokenIndex = validRefreshTokens.indexOf(old);
     validRefreshTokens[tokenIndex] = new;] (refresh) *)
Definition rotate (reg : Js.array) (old new : string) : Js.array :=
  let tokenIndex := Js.indexOf reg old in
  Js.assign reg tokenIndex new.

(** [validRefreshTokens.filter(token => token !== refreshToken)] (logout) *)
Definition revoke (reg : Js.array) (token : string) : Js.array :=
  Js.filter_neq reg token.

End Registry.

(** [req.body] of a registration and of a login. *)
Record RegisterBody : Type := mkRegisterBody
  { reg_username : option string;
    reg_email : option string;
    reg_password : option string;
    reg_role : option string }.

Record LoginBody : Type := mkLoginBody
  { login_username : option string;
    login_password : option string }.

(** The value of a field that was found truthy. *)
Definition str (o : option string) : string :=
  match o with
  | Some s => s
  | None => EmptyString
  end.

(** The options of the [refreshToken] cookie. *)
Definition refreshCookieOptions : CookieOptions :=
  {| httpOnly := true; secure := true; sameSite := "strict";
     maxAge := 7 * 24 * 60 * 60 * 1000 |}.

(** [{ id, username, email, role }] as [res.json] sends it: a key whose
    value is [undefined] is left out. *)
Definition user_json (p : Payload) : json :=
  JObj (match id p with
        | Some i => [("id", JNum i)]
        | None => []
        end
        ++ [("username", JStr (username p)); ("email", JStr (email p));
            ("role", JStr (role p))])%list.

Section Controller.

Variable J : JwtLib.
Variable B : BcryptLib.
Variable D : Database.
Variable env : Env.

Definition registerUser (st : Server) (now : Z) (b : RegisterBody)
  : Response * Server :=
  let role := match reg_role b with Some r => r | None => "customer" end in
  if negb (Js.truthy_opt (reg_username b))
     || negb (Js.truthy_opt (reg_email b))
     || negb (Js.truthy_opt (reg_password b))
  then (reply 400 "All fields are required", st)
  else
    let username := str (reg_username b) in
    let email := str (reg_email b) in
    let password := str (reg_password b) in
    let existingUsers :=
      select_where_username_or_email (users st) username email in
    if (0 <? Z.of_nat (List.length existingUsers))
    then (reply 409 "Username or email already taken", st)
    else
      let saltRounds := 12 in
      let hashedPassword := bcrypt_hash B password saltRounds in
      let users' :=
        insert_user D (users st) username email hashedPassword role in
      match executeQuery (db_module D) (insert_recordset D) with
      | None =>
          (* [insertResult] is [undefined]: reading [insertResult.insertId]
             throws, after the row went in, and the [catch] answers *)
          (reply 500 "Registration failed. Please try again.",
           {| validRefreshTokens := validRefreshTokens st; users := users' |})
      | Some insertResult =>
          (* [insertResult] is an array, which has no [insertId] *)
          let newUserId : option Z := None in
          let tokenPayload :=
            {| id := newUserId; username := username; email := email;
               role := role |} in
          let tokens := createTokenPair J env now tokenPayload in
          ({| status := 201;
              body := JObj [("message", JStr "User registered successfully");
                            ("accessToken", JStr (accessToken tokens));
                            ("user", user_json tokenPayload)];
              cookies := [SetCookie "refreshToken" (refreshToken tokens)
                                    refreshCookieOptions] |},
           {| validRefreshTokens :=
                Registry.record_token (validRefreshTokens st)
                                      (refreshToken tokens);
              users := users' |})
      end.

Definition loginUser (st : Server) (now : Z) (b : LoginBody)
  : Response * Server :=
  if negb (Js.truthy_opt (login_username b))
     || negb (Js.truthy_opt (login_password b))
  then (reply 400 "Username and password required", st)
  else
    let username := str (login_username b) in
    let password := str (login_password b) in
    let found := select_where_username_or_email (users st) username username in
    match found with
    | [] => (reply 401 "Invalid login credentials", st)
    | user :: _ =>
        let passwordMatches := bcrypt_compare B password (user_password user) in
        if negb passwordMatches
        then (reply 401 "Invalid login credentials", st)
        else
          let tokenPayload :=
            {| id := Some (user_id user); username := user_username user;
               email := user_email user; role := user_role user |} in
          let tokens := createTokenPair J env now tokenPayload in
          ({| status := 200;
              body := JObj [("message", JStr "Login successful");
                            ("accessToken", JStr (accessToken tokens));
                            ("user", user_json tokenPayload)];
              cookies := [SetCookie "refreshToken" (refreshToken tokens)
                                    refreshCookieOptions] |},
           {| validRefreshTokens :=
                Registry.record_token (validRefreshTokens st)
                                      (refreshToken tokens);
              users := users st |})
    end.

(** [cookie] is [req.cookies.refreshToken]. *)
Definition refreshAccessToken (st : Server) (now : Z) (cookie : option string)
  : Response * Server :=
  if negb (Js.truthy_opt cookie)
  then (reply 401 "Refresh token not found", st)
  else
    let refreshToken_ := str cookie in
    if negb (Registry.isValid (validRefreshTokens st) refreshToken_)
    then (reply 403 "Invalid refresh token", st)
    else
      match validateRefreshToken J env now refreshToken_ with
      | inr decodedToken =>
          let identity :=
            {| id := id (claims decodedToken);
               username := username (claims decodedToken);
               email := email (claims decodedToken);
               role := role (claims decodedToken) |} in
          let newTokens := createTokenPair J env now identity in
          ({| status := 200;
              body := JObj [("accessToken", JStr (accessToken newTokens));
                            ("user", user_json identity)];
              cookies := [SetCookie "refreshToken" (refreshToken newTokens)
                                    refreshCookieOptions] |},
           {| validRefreshTokens :=
                Registry.rotate (validRefreshTokens st) refreshToken_
                                (refreshToken newTokens);
              users := users st |})
      | inl _ => (reply 403 "Refresh token expired or invalid", st)
      end.

Definition logoutUser (st : Server) (cookie : option string)
  : Response * Server :=
  let reg' :=
    if Js.truthy_opt cookie
    then Registry.revoke (validRefreshTokens st) (str cookie)
    else validRefreshTokens st in
  ({| status := 200;
      body := JObj [("message", JStr "Logged out successfully")];
      cookies := [ClearCookie "refreshToken"] |},
   {| validRefreshTokens := reg'; users := users st |}).

End Controller.

(* ================================================================== *)
(** ** [backend/middleware/auth.js] *)

(** How a middleware ends: with a response, or with [next()] and the
    [req.user] it leaves behind ([None] is [null]). *)
Inductive Outcome : Type :=
| Respond (r : Response)
| Next (user : option Decoded).

(** [authHeader && authHeader.split(' ')[1]] *)
Definition header_token (authHeader : option string) : option string :=
  match authHeader with
  | Some h => if Js.truthy h then Js.at_index (Js.split " " h) 1 else Some h
  | None => None
  end.

Section Middleware.

Variable J : JwtLib.
Variable env : Env.

(** [authHeader] is [req.headers['authorization']]. *)
Definition checkAuth (now : Z) (authHeader : option string) : Outcome :=
  let token := header_token authHeader in
  if negb (Js.truthy_opt token)
  then Respond (reply 401 "Access token is required")
  else
    match validateAccessToken J env now (str token) with
    | inr decodedUser => Next (Some decodedUser)
    | inl TokenExpiredError =>
        Respond {| status := 401;
                   body := JObj [("message", JStr "Access token has expired");
                                 ("expired", JBool true)];
                   cookies := [] |}
    | inl JsonWebTokenError => Respond (reply 403 "Invalid access token")
    | inl _ => Respond (reply 403 "Token verification failed")
    end.

(** Runs after [checkAuth], on the [req.user] it attached. *)
Definition requireAdmin (user : Decoded) : Outcome :=
  if negb (String.eqb (role (claims user)) "admin")
  then Respond (reply 403 "Admin privileges required")
  else Next (Some user).

Definition optionalAuth (now : Z) (authHeader : option string) : Outcome :=
  let token := header_token authHeader in
  if negb (Js.truthy_opt token)
  then Next None
  else
    match validateAccessToken J env now (str token) with
    | inr decodedUser => Next (Some decodedUser)
    | inl _ => Next None
    end.

End Middleware.

(* ================================================================== *)
(** ** [backend/routes/auth.js]: the registration route *)

(** [isEmail] and [normalizeEmail] of [express-validator]. *)
Record ValidatorLib : Type := mkValidatorLib
  { isEmail : string -> bool;
    normalizeEmail : string -> string }.

(** An entry of [errors.array()]: the value the rule saw in [req.body]
    ([None] when the field is missing), the message and the field. *)
Record ValidationError : Type := mkValidationError
  { err_value : option string;
    err_msg : string;
    err_path : string }.

Module Validator.

Definition code (c : ascii) : nat := nat_of_ascii c.

Definition between (lo hi : nat) (c : ascii) : bool :=
  (Nat.leb lo (code c) && Nat.leb (code c) hi)%bool.

(** [[a-z]], [[A-Z]], [\d] and [[a-zA-Z0-9_]] *)
Definition lower (c : ascii) : bool := between 97 122 c.
Definition upper (c : ascii) : bool := between 65 90 c.
Definition digit (c : ascii) : bool := between 48 57 c.
Definition word (c : ascii) : bool :=
  lower c || upper c || digit c || Nat.eqb (code c) 95.

(** The characters [.] does not match. *)
Definition line_terminator (c : ascii) : bool :=
  Nat.eqb (code c) 10 || Nat.eqb (code c) 13.

Fixpoint all (f : ascii -> bool) (s : string) : bool :=
  match s with
  | EmptyString => true
  | String c r => f c && all f r
  end.

Fixpoint any (f : ascii -> bool) (s : string) : bool :=
  match s with
  | EmptyString => false
  | String c r => f c || any f r
  end.

(** The part of [s] that [.*] can run over from its start. *)
Fixpoint first_line (s : string) : string :=
  match s with
  | EmptyString => EmptyString
  | String c r =>
      if line_terminator c then EmptyString else String c (first_line r)
  end.

(** [.isLength({ min, max })] *)
Definition isLength (min : nat) (max : option nat) (s : string) : bool :=
  Nat.leb min (String.length s)
  && match max with
     | Some m => Nat.leb (String.length s) m
     | None => true
     end.

(** [.matches(/^[a-zA-Z0-9_]+$/)] *)
Definition matches_word (s : string) : bool :=
  Js.truthy s && all word s.

(** [.matches(/^(?=.*[a-z])(?=.*[A-Z])(?=.*\d)/)] *)
Definition matches_password (s : string) : bool :=
  any lower (first_line s) && any upper (first_line s)
  && any digit (first_line s).

(** [.isIn(values)] *)
Definition isIn (values : list string) (s : string) : bool :=
  existsb (String.eqb s) values.

(** One validator of a chain, on the field [path] whose value in the body
    is [value]: its error when it fails. *)
Definition check (ok : bool) (value : option string) (path msg : string)
  : list ValidationError :=
  if ok then []
  else [{| err_value := value; err_msg := msg; err_path := path |}].

End Validator.

(** An entry as [res.json] sends it: [{ type, value, msg, path, location }],
    all rules being on [body(...)] fields; a [value] that is [undefined] is
    left out. *)
Definition error_json (e : ValidationError) : json :=
  JObj ([("type", JStr "field")]
        ++ match err_value e with
           | Some v => [("value", JStr v)]
           | None => []
           end
        ++ [("msg", JStr (err_msg e)); ("path", JStr (err_path e));
            ("location", JStr "body")])%list.

Section Routes.

Variable J : JwtLib.
Variable B : BcryptLib.
Variable V : ValidatorLib.
Variable D : Database.
Variable env : Env.

(** The rules of [validateRegistration], run on [req.body]: the errors
    they collect, and the body after [normalizeEmail].  A validator sees
    a missing field as the empty string; [.optional()] skips the rule of
    a missing [role]. *)
Definition validateRegistration (b : RegisterBody)
  : list ValidationError * RegisterBody :=
  let u := str (reg_username b) in
  let e := str (reg_email b) in
  let p := str (reg_password b) in
  let errors :=
    (Validator.check (Validator.isLength 3 (Some 50%nat) u)
       (reg_username b) "username"
       "Username must be between 3-50 characters"
     ++ Validator.check (Validator.matches_word u)
       (reg_username b) "username"
       "Username can only contain letters, numbers and underscores"
     ++ Validator.check (isEmail V e)
       (reg_email b) "email"
       "Please enter a valid email address"
     ++ Validator.check (Validator.isLength 6 None p)
       (reg_password b) "password"
       "Password must be at least 6 characters"
     ++ Validator.check (Validator.matches_password p)
       (reg_password b) "password"
       "Password must contain uppercase, lowercase and number"
     ++ match reg_role b with
        | None => []
        | Some r =>
            Validator.check (Validator.isIn ["admin"; "customer"] r)
              (Some r) "role"
              "Role must be admin or customer"
        end)%list in
  (errors,
   {| reg_username := reg_username b;
      reg_email := Some (normalizeEmail V e);
      reg_password := reg_password b;
      reg_role := reg_role b |}).

(** [checkValidationErrors]: the 400 response, or [None] for [next()]. *)
Definition checkValidationErrors (errors : list ValidationError)
  : option Response :=
  match errors with
  | [] => None
  | _ :: _ =>
      Some {| status := 400;
              body := JObj [("message", JStr "Validation failed");
                            ("errors", JArr (map error_json errors))];
              cookies := [] |}
  end.

(** [router.post('/register', validateRegistration, checkValidationErrors,
    register)]: no auth middleware on the route. *)
Definition post_register (st : Server) (now : Z) (b : RegisterBody)
  : Response * Server :=
  let (errors, b') := validateRegistration b in
  match checkValidationErrors errors with
  | Some r => (r, st)
  | None => registerUser J B D env st now b'
  end.

End Routes.

(* ================================================================== *)
(** ** Instances of the libraries, to run the handlers on concrete requests

    [Plain.jwt] keeps the behaviour of [jsonwebtoken] that the handlers see
    (claims, issue time, expiry, the secret a token was signed with) and
    writes the token in clear instead of computing an HMAC. *)

Module Plain.

(** A field on the wire: every character behind a [c], closed by a dot. *)
Fixpoint put (s rest : string) : string :=
  match s with
  | EmptyString => String "." rest
  | String c r => String "c" (String c (put r rest))
  end.

Fixpoint take (s : string) : option (string * string) :=
  match s with
  | String "." rest => Some (EmptyString, rest)
  | String "c" (String c r) =>
      match take r with
      | Some (f, rest) => Some (String c f, rest)
      | None => None
      end
  | _ => None
  end.

(** Integers in binary, least significant digit first. *)
Fixpoint pos_text (p : positive) : string :=
  match p with
  | xH => EmptyString
  | xO q => String "0" (pos_text q)
  | xI q => String "1" (pos_text q)
  end.

Fixpoint text_pos (s : string) : option positive :=
  match s with
  | EmptyString => Some xH
  | String "0" r => option_map xO (text_pos r)
  | String "1" r => option_map xI (text_pos r)
  | _ => None
  end.

Definition z_text (z : Z) : string :=
  match z with
  | Z0 => "z"
  | Zpos p => String "p" (pos_text p)
  | Zneg p => String "n" (pos_text p)
  end.

Definition text_z (s : string) : option Z :=
  match s with
  | String "z" EmptyString => Some Z0
  | String "p" r => option_map Zpos (text_pos r)
  | String "n" r => option_map Zneg (text_pos r)
  | _ => None
  end.

(** An [id], [u] when it is [undefined]. *)
Definition id_text (o : option Z) : string :=
  match o with
  | Some z => z_text z
  | None => "u"
  end.

Definition text_id (s : string) : option (option Z) :=
  match s with
  | String "u" EmptyString => Some None
  | _ => option_map Some (text_z s)
  end.

Definition bind {A B : Type} (o : option A) (f : A -> option B) : option B :=
  match o with
  | Some a => f a
  | None => None
  end.

Notation "'let?' x ':=' o 'in' k" := (bind o (fun x => k))
  (at level 10, x pattern, o at level 100, k at level 200).

Definition sign (p : Payload) (secret : string) (expiresIn now : Z) : string :=
  put (id_text (id p))
    (put (username p)
       (put (email p)
          (put (role p)
             (put (z_text now)
                (put (z_text (now + expiresIn))
                   (put secret EmptyString)))))).

(** The token read back: the claims and the secret it was signed with. *)
Definition parse (token : string) : option (Decoded * string) :=
  let? (i, r1) := take token in
  let? (u, r2) := take r1 in
  let? (e, r3) := take r2 in
  let? (ro, r4) := take r3 in
  let? (ia, r5) := take r4 in
  let? (ex, r6) := take r5 in
  let? (k, r7) := take r6 in
  let? i' := text_id i in
  let? ia' := text_z ia in
  let? ex' := text_z ex in
  match r7 with
  | EmptyString =>
      Some ({| claims := {| id := i'; username := u; email := e; role := ro |};
               iat := ia'; exp := ex' |}, k)
  | String _ _ => None
  end.

(** Malformed, then signature, then expiry: the order of [jwt.verify]. *)
Definition verify (token secret : string) (now : Z) : JwtError + Decoded :=
  match parse token with
  | None => inl JsonWebTokenError
  | Some (d, k) =>
      if String.eqb k secret
      then if now <? exp d then inr d else inl TokenExpiredError
      else inl JsonWebTokenError
  end.

Definition jwt : JwtLib := {| jwt_sign := sign; jwt_verify := verify |}.

(** A salted hash is out of reach here; the instance tags the password. *)
Definition bcrypt : BcryptLib :=
  {| bcrypt_hash := fun password _ => String "#" password;
     bcrypt_compare := fun password hash =>
                         String.eqb hash (String "#" password) |}.

(** A server that numbers the rows from 1 and a driver that gives no
    recordset for an [INSERT], behind each version of [executeQuery]. *)
Definition database : Database :=
  {| db_module := RecordsetOrEmpty;
     insert_recordset := None;
     insert_id := fun t => Z.of_nat (List.length t) + 1 |}.

Definition database_as_is : Database :=
  {| db_module := RecordsetAsIs;
     insert_recordset := None;
     insert_id := fun t => Z.of_nat (List.length t) + 1 |}.

(** An address is anything with an [@]; normalisation leaves it alone. *)
Definition validator : ValidatorLib :=
  {| isEmail := fun s => Validator.any (Ascii.eqb "@") s;
     normalizeEmail := fun s => s |}.

End Plain.

(* ================================================================== *)
(** ** Vocabulary of the statements *)

(** How many elements of the registry are the token [t]. *)
Definition occurrences (reg : Js.array) (t : string) : nat :=
  List.length (List.filter (Js.slot_is t) (Js.items reg)).

(** [old] replaced by [new] at its first occurrence. *)
Fixpoint replace_first (old new : string) (l : list (option string))
  : list (option string) :=
  match l with
  | [] => []
  | x :: r =>
      if Js.slot_is old x then Some new :: r
      else x :: replace_first old new r
  end.

(** A string without a space: one field of a header. *)
Definition spaceless (s : string) : bool :=
  Validator.all (fun c => negb (Ascii.eqb c " ")) s.

(** A header of two fields, [scheme token]. *)
Definition two_fields (scheme token : string) : string :=
  scheme ++ String " " token.

(** The role a registration ends up with. *)
Definition requested_role (b : RegisterBody) : string :=
  match reg_role b with
  | Some r => r
  | None => "customer"
  end.


(** The state and the requests of the scenarios below. *)
Module Scenario.

Definition alice_row : UserRow :=
  {| user_id := 1; user_username := "alice"; user_email := "alice@x.com";
     user_password := String "#" "Passw0rd"; user_role := "customer" |}.

Definition start : Server :=
  {| validRefreshTokens := Js.empty; users := [alice_row] |}.

Definition alice_login : LoginBody :=
  {| login_username := Some "alice"; login_password := Some "Passw0rd" |}.

Definition login (st : Server) (now : Z) : Response * Server :=
  loginUser Plain.jwt Plain.bcrypt no_env st now alice_login.

Definition refresh (st : Server) (now : Z) (cookie : option string)
  : Response * Server :=
  refreshAccessToken Plain.jwt no_env st now cookie.

(** The value of the [refreshToken] cookie a response sets. *)
Definition cookie_of (r : Response) : option string :=
  match cookies r with
  | [SetCookie _ v _] => Some v
  | _ => None
  end.

End Scenario.

(* ================================================================== *)
(** ** [backend/routes/auth.js]: the login route and the router *)

Module Sanitizer.

(** The characters [\s] matches, among the one-byte ones. *)
Definition whitespace (c : ascii) : bool :=
  Validator.between 9 13 c || Nat.eqb (Validator.code c) 32
  || Nat.eqb (Validator.code c) 160.

Fixpoint ltrim (s : string) : string :=
  match s with
  | EmptyString => EmptyString
  | String c r => if whitespace c then ltrim r else s
  end.

Fixpoint rtrim (s : string) : string :=
  match s with
  | EmptyString => EmptyString
  | String c r =>
      match rtrim r with
      | EmptyString => if whitespace c then EmptyString else String c EmptyString
      | String _ _ as r' => String c r'
      end
  end.

(** [.trim()] *)
Definition trim (s : string) : string := rtrim (ltrim s).

(** [.notEmpty()] *)
Definition notEmpty (s : string) : bool := Js.truthy s.

End Sanitizer.

(** The rules of [validateLogin]: [notEmpty] sees the username as it came,
    [trim] then rewrites it in [req.body]. *)
Definition validateLogin (b : LoginBody) : list ValidationError * LoginBody :=
  let u := str (login_username b) in
  let p := str (login_password b) in
  ((Validator.check (Sanitizer.notEmpty u) (login_username b) "username"
      "Username or email is required"
    ++ Validator.check (Sanitizer.notEmpty p) (login_password b) "password"
      "Password is required")%list,
   {| login_username := Some (Sanitizer.trim u);
      login_password := login_password b |}).

(** A request to one of the four routes of the router. *)
Inductive AuthRequest : Type :=
| PostRegister (b : RegisterBody)
| PostLogin (b : LoginBody)
| PostRefresh (cookie : option string)
| PostLogout (cookie : option string).

Section AuthRouter.

Variable J : JwtLib.
Variable B : BcryptLib.
Variable V : ValidatorLib.
Variable D : Database.
Variable env : Env.

(** [router.post('/login', validateLogin, checkValidationErrors, login)] *)
Definition post_login (st : Server) (now : Z) (b : LoginBody)
  : Response * Server :=
  let (errors, b') := validateLogin b in
  match checkValidationErrors errors with
  | Some r => (r, st)
  | None => loginUser J B env st now b'
  end.

(** The router of [routes/auth.js]. *)
Definition auth_router (st : Server) (now : Z) (req : AuthRequest)
  : Response * Server :=
  match req with
  | PostRegister b => post_register J B V D env st now b
  | PostLogin b => post_login st now b
  | PostRefresh cookie => refreshAccessToken J env st now cookie
  | PostLogout cookie => logoutUser st cookie
  end.

(** The state after a sequence of requests, each with its clock and each
    served to its end before the next.  The handlers touch the registry
    between two [await]s only, so for the registry this is every run; the
    lookup and the insert of a registration are two [await]s apart, and
    runs that interleave two registrations are not among these. *)
Fixpoint serve (st : Server) (trace : list (Z * AuthRequest)) : Server :=
  match trace with
  | [] => st
  | (now, req) :: rest => serve (snd (auth_router st now req)) rest
  end.

End AuthRouter.

(* ================================================================== *)
(** ** The middleware chains of the car and inquiry routes *)

(** [authenticateToken, requireAdmin] in front of a handler.  [checkAuth]
    goes on only with a user attached; the last case is there to make the
    match complete. *)
Definition admin_chain (J : JwtLib) (env : Env) (now : Z)
  (authHeader : option string) : Outcome :=
  match checkAuth J env now authHeader with
  | Respond r => Respond r
  | Next (Some user) => requireAdmin user
  | Next None => Next None
  end.

(* ================================================================== *)
(** ** The queries of the list routes (cars, inquiries) *)

Module Sql.

(** A value bound to a [?]. *)
Inductive Param : Type :=
| PInt (z : Z)
| PText (s : string)
| PUndefined.

(** [req.user.id] as a value to bind. *)
Definition of_id (o : option Z) : Param :=
  match o with
  | Some z => PInt z
  | None => PUndefined
  end.

(** The number of [?] in a statement. *)
Fixpoint placeholders (s : string) : nat :=
  match s with
  | EmptyString => O
  | String c r => if Ascii.eqb c "?" then S (placeholders r) else placeholders r
  end.

(** [if (cond) { where += clause; params.push(param); }] *)
Definition filter_on (cond : bool) (clause : string) (param : Param)
  (acc : string * list Param) : string * list Param :=
  if cond then (fst acc ++ clause, (snd acc ++ [param])%list) else acc.

Definition nl : string := String (ascii_of_nat 10) EmptyString.

End Sql.

(** [GET /api/cars]: the filters of [req.query]. *)
Record CarFilters : Type := mkCarFilters
  { f_make : option string;
    f_model : option string;
    f_minPrice : option string;
    f_maxPrice : option string;
    f_fuelType : option string;
    f_transmission : option string;
    f_available : option string }.

Module Cars.
Import Sql.

(** [whereConditions] and [queryParams] after the seven [if]s. *)
Definition whereConditions (f : CarFilters) : string * list Param :=
  let available := match f_available f with Some a => a | None => "true" end in
  let acc := ("WHERE 1=1", []) in
  let acc := filter_on (String.eqb available "true")
               " AND is_available = ?" (PInt 1) acc in
  let acc := filter_on (Js.truthy_opt (f_make f))
               " AND make LIKE ?" (PText ("%" ++ str (f_make f) ++ "%")) acc in
  let acc := filter_on (Js.truthy_opt (f_model f))
               " AND model LIKE ?" (PText ("%" ++ str (f_model f) ++ "%")) acc in
  let acc := filter_on (Js.truthy_opt (f_minPrice f))
               " AND price >= ?" (PText (str (f_minPrice f))) acc in
  let acc := filter_on (Js.truthy_opt (f_maxPrice f))
               " AND price <= ?" (PText (str (f_maxPrice f))) acc in
  let acc := filter_on (Js.truthy_opt (f_fuelType f))
               " AND fuel_type = ?" (PText (str (f_fuelType f))) acc in
  filter_on (Js.truthy_opt (f_transmission f))
    " AND transmission = ?" (PText (str (f_transmission f))) acc.

(** [countSQL] with its parameters. *)
Definition countSQL (f : CarFilters) : string * list Param :=
  ("SELECT COUNT(*) as total FROM cars " ++ fst (whereConditions f),
   snd (whereConditions f)).

(** [carsSQL] with its parameters; [limit] and [offset] are the numbers
    [parseInt(limit)] and [(page - 1) * limit]. *)
Definition carsSQL (f : CarFilters) (limit offset : Param)
  : string * list Param :=
  (nl ++ "      SELECT * FROM cars " ++ nl
   ++ "      " ++ fst (whereConditions f) ++ " " ++ nl
   ++ "      ORDER BY created_at DESC " ++ nl
   ++ "      LIMIT ? OFFSET ?" ++ nl ++ "    ",
   (snd (whereConditions f) ++ [limit; offset])%list).

(** Two sets of filters switch the same clauses on. *)
Definition same_shape (f g : CarFilters) : Prop :=
  String.eqb (match f_available f with Some a => a | None => "true" end) "true"
  = String.eqb (match f_available g with Some a => a | None => "true" end) "true"
  /\ Js.truthy_opt (f_make f) = Js.truthy_opt (f_make g)
  /\ Js.truthy_opt (f_model f) = Js.truthy_opt (f_model g)
  /\ Js.truthy_opt (f_minPrice f) = Js.truthy_opt (f_minPrice g)
  /\ Js.truthy_opt (f_maxPrice f) = Js.truthy_opt (f_maxPrice g)
  /\ Js.truthy_opt (f_fuelType f) = Js.truthy_opt (f_fuelType g)
  /\ Js.truthy_opt (f_transmission f) = Js.truthy_opt (f_transmission g).

End Cars.

Module Inquiries.
Import Sql.

(** [GET /api/inquiries]: the caller's inquiries.  [userId] is
    [req.user.id], [status] is [req.query.status]. *)
Definition mine_where (userId : option Z) (status : option string)
  : string * list Param :=
  filter_on (Js.truthy_opt status) " AND i.status = ?" (PText (str status))
    ("WHERE i.user_id = ?", [of_id userId]).

Definition mine_count (userId : option Z) (status : option string)
  : string * list Param :=
  (nl ++ "      SELECT COUNT(*) as total " ++ nl
   ++ "      FROM inquiries i " ++ nl
   ++ "      " ++ fst (mine_where userId status) ++ nl ++ "    ",
   snd (mine_where userId status)).

Definition mine_page (userId : option Z) (status : option string)
  (limit offset : Param) : string * list Param :=
  (nl ++ "      SELECT " ++ nl
   ++ "        i.*," ++ nl
   ++ "        c.make," ++ nl
   ++ "        c.model," ++ nl
   ++ "        c.year," ++ nl
   ++ "        c.price," ++ nl
   ++ "        c.image_url" ++ nl
   ++ "      FROM inquiries i" ++ nl
   ++ "      JOIN cars c ON i.car_id = c.id" ++ nl
   ++ "      " ++ fst (mine_where userId status) ++ nl
   ++ "      ORDER BY i.created_at DESC" ++ nl
   ++ "      LIMIT ? OFFSET ?" ++ nl ++ "    ",
   (snd (mine_where userId status) ++ [limit; offset])%list).

(** [GET /api/inquiries/admin/all]: [status] and [userId] are both of
    [req.query]. *)
Definition all_where (status userId : option string) : string * list Param :=
  filter_on (Js.truthy_opt userId) " AND i.user_id = ?" (PText (str userId))
    (filter_on (Js.truthy_opt status) " AND i.status = ?" (PText (str status))
       ("WHERE 1=1", [])).

Definition all_count (status userId : option string) : string * list Param :=
  (nl ++ "      SELECT COUNT(*) as total " ++ nl
   ++ "      FROM inquiries i " ++ nl
   ++ "      " ++ fst (all_where status userId) ++ nl ++ "    ",
   snd (all_where status userId)).

Definition all_page (status userId : option string) (limit offset : Param)
  : string * list Param :=
  (nl ++ "      SELECT " ++ nl
   ++ "        i.*," ++ nl
   ++ "        u.username," ++ nl
   ++ "        u.email," ++ nl
   ++ "        c.make," ++ nl
   ++ "        c.model," ++ nl
   ++ "        c.year," ++ nl
   ++ "        c.price," ++ nl
   ++ "        c.image_url" ++ nl
   ++ "      FROM inquiries i" ++ nl
   ++ "      JOIN users u ON i.user_id = u.id" ++ nl
   ++ "      JOIN cars c ON i.car_id = c.id" ++ nl
   ++ "      " ++ fst (all_where status userId) ++ nl
   ++ "      ORDER BY i.created_at DESC" ++ nl
   ++ "      LIMIT ? OFFSET ?" ++ nl ++ "    ",
   (snd (all_where status userId) ++ [limit; offset])%list).

(** [GET /api/inquiries/:id]: [id] is [req.params.id], [user] is
    [req.user]. *)
Definition one (id_ : string) (user : Decoded) : string * list Param :=
  let userId := id (claims user) in
  let isAdmin := String.eqb (role (claims user)) "admin" in
  filter_on (negb isAdmin) " AND i.user_id = ?" (of_id userId)
    (nl ++ "      SELECT " ++ nl
     ++ "        i.*," ++ nl
     ++ "        u.username," ++ nl
     ++ "        u.email," ++ nl
     ++ "        c.make," ++ nl
     ++ "        c.model," ++ nl
     ++ "        c.year," ++ nl
     ++ "        c.price," ++ nl
     ++ "        c.image_url," ++ nl
     ++ "        c.description" ++ nl
     ++ "      FROM inquiries i" ++ nl
     ++ "      JOIN users u ON i.user_id = u.id" ++ nl
     ++ "      JOIN cars c ON i.car_id = c.id" ++ nl
     ++ "      WHERE i.id = ?" ++ nl ++ "    ",
     [PText id_]).

End Inquiries.

(* ================================================================== *)
(** ** Vocabulary of the invariants *)

(** An array as [push], an in-range assignment and [filter] leave it: no
    hole, no property beside the elements. *)
Definition tidy (reg : Js.array) : Prop :=
  Js.props reg = [] /\ Forall (fun x => x <> None) (Js.items reg).

(** Every token of the registry is the refresh token of a pair the codec
    issued. *)
Definition issued (J : JwtLib) (env : Env) (reg : Js.array) : Prop :=
  forall t, Registry.isValid reg t = true ->
            exists p now, t = refreshToken (createTokenPair J env now p).

(** A row as the registration route writes it: a username and a role that
    pass the rules, an address out of [normalizeEmail], and for password
    the hash of a password that passes the rules. *)
Definition validated (B : BcryptLib) (V : ValidatorLib) (r : UserRow) : Prop :=
  Validator.isLength 3 (Some 50%nat) (user_username r) = true
  /\ Validator.matches_word (user_username r) = true
  /\ (user_role r = "admin" \/ user_role r = "customer")
  /\ (exists a, isEmail V a = true /\ user_email r = normalizeEmail V a)
  /\ (exists p, Validator.isLength 6 None p = true
                /\ Validator.matches_password p = true
                /\ user_password r = bcrypt_hash B p 12).

(** A statement has as many [?] as the list bound to it has values. *)
Definition balanced (q : string * list Sql.Param) : Prop :=
  Sql.placeholders (fst q) = List.length (snd q).

(* ================================================================== *)
(** ** The plain instances satisfy the library contracts *)

Module PlainFacts.
Import Plain.

Lemma take_put (s rest : string) : take (put s rest) = Some (s, rest).
Proof.
  induction s as [|c r IH]; simpl.
  - reflexivity.
  - now rewrite IH.
Qed.

Lemma text_pos_text (p : positive) : text_pos (pos_text p) = Some p.
Proof.
  induction p as [q IH|q IH|]; simpl; try rewrite IH; reflexivity.
Qed.

Lemma text_z_text (z : Z) : text_z (z_text z) = Some z.
Proof.
  destruct z as [|p|p]; simpl; try rewrite text_pos_text; reflexivity.
Qed.

Lemma text_id_text (o : option Z) : text_id (id_text o) = Some o.
Proof.
  destruct o as [z|]; [|reflexivity].
  unfold id_text, text_id. rewrite text_z_text.
  now destruct z.
Qed.

Lemma parse_sign (p : Payload) (k : string) (e t : Z) :
  parse (sign p k e t)
  = Some ({| claims := p; iat := t; exp := t + e |}, k).
Proof.
  unfold parse, sign.
  repeat (rewrite take_put; cbn [bind]).
  rewrite text_id_text; cbn [bind].
  repeat (rewrite text_z_text; cbn [bind]).
  destruct p; reflexivity.
Qed.

Lemma jwt_roundtrip_holds : jwt_roundtrip jwt.
Proof.
  intros p k e t now. cbn [jwt jwt_sign jwt_verify].
  unfold verify. rewrite parse_sign, String.eqb_refl. reflexivity.
Qed.

Lemma jwt_key_bound_holds : jwt_key_bound jwt.
Proof.
  intros p k k' e t now Hk. cbn [jwt jwt_sign jwt_verify].
  unfold verify. rewrite parse_sign.
  destruct (String.eqb_spec k k') as [Heq|_]; [contradiction|reflexivity].
Qed.

End PlainFacts.

(* ================================================================== *)
(** ** Arrays *)

Module JsFacts.
Import Js.

Lemma truthy_iff (s : string) : truthy s = true <-> s <> EmptyString.
Proof.
  destruct s; simpl; split; intro H; congruence.
Qed.

Lemma slot_is_some (t s : string) : slot_is t (Some s) = String.eqb s t.
Proof. reflexivity. Qed.

Lemma includes_push (a : array) (v t : string) :
  includes (push a v) t = includes a t || String.eqb v t.
Proof.
  unfold includes, push; simpl.
  rewrite existsb_app; simpl. now rewrite orb_false_r.
Qed.

Lemma includes_filter_neq (a : array) (t t' : string) :
  includes (filter_neq a t) t' = includes a t' && negb (String.eqb t' t).
Proof.
  unfold includes, filter_neq; simpl.
  induction (items a) as [|x r IH]; simpl; [reflexivity|].
  destruct x as [s|]; simpl; [|exact IH].
  destruct (String.eqb_spec s t) as [->|Hst]; simpl.
  - rewrite IH.
    destruct (String.eqb_spec t t') as [->|Htt']; simpl.
    + rewrite String.eqb_refl. simpl. now rewrite andb_false_r.
    + reflexivity.
  - rewrite IH.
    destruct (String.eqb_spec s t') as [->|Hst']; simpl; [|reflexivity].
    destruct (String.eqb_spec t' t) as [->|_]; [contradiction|reflexivity].
Qed.

Lemma filter_neq_idem (a : array) (t : string) :
  filter_neq (filter_neq a t) t = filter_neq a t.
Proof.
  unfold filter_neq; simpl. f_equal.
  induction (items a) as [|x r IH]; simpl; [reflexivity|].
  destruct x as [s|]; simpl; [|exact IH].
  destruct (String.eqb s t) eqn:E; simpl; [exact IH|].
  rewrite E; simpl. now rewrite IH.
Qed.

Lemma count_filter_neq (a : array) (t t' : string) :
  t' <> t ->
  List.length (List.filter (slot_is t') (items (filter_neq a t)))
  = List.length (List.filter (slot_is t') (items a)).
Proof.
  intro Hne. unfold filter_neq; simpl.
  induction (items a) as [|x r IH]; simpl; [reflexivity|].
  destruct x as [s|]; simpl; [|exact IH].
  destruct (String.eqb_spec s t) as [->|Hst]; simpl.
  - destruct (String.eqb_spec t t') as [Heq|_]; [now subst|exact IH].
  - destruct (String.eqb s t'); simpl; now rewrite IH.
Qed.

Lemma index_from_absent (l : list (option string)) (t : string) (i : Z) :
  existsb (slot_is t) l = false -> index_from i l t = -1.
Proof.
  revert i. induction l as [|x r IH]; intros i H; simpl in *; [reflexivity|].
  apply orb_false_elim in H. destruct H as [Hx Hr].
  rewrite Hx. now apply IH.
Qed.

Lemma index_from_shift (l : list (option string)) (t : string) (i : Z) :
  existsb (slot_is t) l = true ->
  index_from i l t = i + index_from 0 l t /\ 0 <= index_from 0 l t.
Proof.
  revert i. induction l as [|x r IH]; intros i H; simpl in *; [discriminate|].
  destruct (slot_is t x) eqn:Hx; simpl in H.
  - lia.
  - destruct (IH (i + 1) H) as [E1 _]. destruct (IH 1 H) as [E2 Hpos].
    rewrite E1, E2. lia.
Qed.

Lemma write_at_first (l : list (option string)) (old new : string) :
  existsb (slot_is old) l = true ->
  write_at (Z.to_nat (index_from 0 l old)) new l = replace_first old new l.
Proof.
  induction l as [|x r IH]; intro H; simpl in *; [discriminate|].
  destruct (slot_is old x) eqn:Hx; simpl in H.
  - reflexivity.
  - destruct (index_from_shift r old 1 H) as [E Hpos].
    rewrite E.
    replace (Z.to_nat (1 + index_from 0 r old))
      with (S (Z.to_nat (index_from 0 r old))) by lia.
    simpl. now rewrite IH.
Qed.

Lemma replace_first_new (l : list (option string)) (old new : string) :
  existsb (slot_is old) l = true ->
  existsb (slot_is new) (replace_first old new l) = true.
Proof.
  induction l as [|x r IH]; intro H; simpl in *; [discriminate|].
  destruct (slot_is old x) eqn:Hx; simpl in *.
  - now rewrite String.eqb_refl.
  - rewrite (IH H). apply orb_true_r.
Qed.

Lemma count_zero_absent (l : list (option string)) (t : string) :
  List.length (List.filter (slot_is t) l) = O ->
  existsb (slot_is t) l = false.
Proof.
  induction l as [|x r IH]; intro H; simpl in *; [reflexivity|].
  destruct (slot_is t x); simpl in *; [discriminate|now apply IH].
Qed.

Lemma replace_first_old (l : list (option string)) (old new : string) :
  new <> old ->
  List.length (List.filter (slot_is old) l) = 1%nat ->
  existsb (slot_is old) (replace_first old new l) = false.
Proof.
  intros Hne. induction l as [|x r IH]; intro H; simpl in *; [reflexivity|].
  destruct (slot_is old x) eqn:Hx; simpl in *.
  - injection H as H. rewrite (count_zero_absent _ _ H).
    destruct (String.eqb_spec new old); [contradiction|reflexivity].
  - rewrite Hx. simpl. now apply IH.
Qed.

Lemma replace_first_other (l : list (option string)) (old new t : string) :
  t <> old -> t <> new ->
  existsb (slot_is t) (replace_first old new l) = existsb (slot_is t) l.
Proof.
  intros Ho Hn. induction l as [|x r IH]; simpl; [reflexivity|].
  destruct (slot_is old x) eqn:Hx; simpl.
  - destruct x as [s|]; simpl in *; [|discriminate].
    apply String.eqb_eq in Hx. subst s.
    destruct (String.eqb_spec new t); [now subst|].
    destruct (String.eqb_spec old t); [now subst|reflexivity].
  - now rewrite IH.
Qed.

End JsFacts.

(* ================================================================== *)
(** ** The registry of refresh tokens *)

Module RegistryFacts.
Import Registry.

Lemma rotate_present_items (reg : Js.array) (old new : string) :
  isValid reg old = true ->
  Js.items (rotate reg old new) = replace_first old new (Js.items reg).
Proof.
  intro H. unfold rotate, Js.assign, Js.indexOf.
  destruct (JsFacts.index_from_shift (Js.items reg) old 0 H) as [_ Hpos].
  destruct (Z.ltb_spec (Js.index_from 0 (Js.items reg) old) 0) as [Hneg|_];
    [lia|].
  simpl. now apply JsFacts.write_at_first.
Qed.

Lemma rotate_absent_items (reg : Js.array) (old new : string) :
  isValid reg old = false ->
  Js.items (rotate reg old new) = Js.items reg.
Proof.
  intro H. unfold rotate, Js.assign, Js.indexOf.
  now rewrite (JsFacts.index_from_absent _ _ 0 H).
Qed.

Lemma rotate_new_valid (reg : Js.array) (old new : string) :
  isValid reg old = true -> isValid (rotate reg old new) new = true.
Proof.
  intro H. unfold isValid, Js.includes.
  rewrite (rotate_present_items _ _ _ H).
  now apply JsFacts.replace_first_new.
Qed.

Lemma rotate_old_invalid (reg : Js.array) (old new : string) :
  isValid reg old = true -> new <> old -> occurrences reg old = 1%nat ->
  isValid (rotate reg old new) old = false.
Proof.
  intros H Hne Hone. unfold isValid, Js.includes.
  rewrite (rotate_present_items _ _ _ H).
  now apply JsFacts.replace_first_old.
Qed.

Lemma rotate_other (reg : Js.array) (old new t : string) :
  isValid reg old = true -> t <> old -> t <> new ->
  isValid (rotate reg old new) t = isValid reg t.
Proof.
  intros H Ho Hn. unfold isValid, Js.includes.
  rewrite (rotate_present_items _ _ _ H).
  now apply JsFacts.replace_first_other.
Qed.

Lemma rotate_absent_valid (reg : Js.array) (old new t : string) :
  isValid reg old = false ->
  isValid (rotate reg old new) t = isValid reg t.
Proof.
  intro H. unfold isValid, Js.includes.
  now rewrite (rotate_absent_items _ _ _ H).
Qed.

Lemma revoke_valid (reg : Js.array) (t t' : string) :
  isValid (revoke reg t) t' = isValid reg t' && negb (String.eqb t' t).
Proof. apply JsFacts.includes_filter_neq. Qed.

Lemma record_valid (reg : Js.array) (t : string) :
  isValid (record_token reg t) t = true.
Proof.
  unfold isValid, record_token. rewrite JsFacts.includes_push.
  rewrite String.eqb_refl. apply orb_true_r.
Qed.

(** Rotation replaces one element: a token that sits twice in the
    registry is still valid after it was rotated out. *)
Example rotate_keeps_a_duplicate :
  let reg := Js.mkArray [Some "old"; Some "old"] [] in
  isValid (rotate reg "old" "new") "old" = true.
Proof. reflexivity. Qed.

(** And a token rotated into itself stays. *)
Example rotate_into_itself :
  let reg := Js.mkArray [Some "old"] [] in
  isValid (rotate reg "old" "old") "old" = true.
Proof. reflexivity. Qed.

End RegistryFacts.

(** The payload the refresh handler rebuilds from the decoded claims. *)
Lemma payload_eta (p : Payload) :
  {| id := id p; username := username p; email := email p; role := role p |} = p.
Proof. now destruct p. Qed.

(** C1, as stated, fails: when [old] is not in the registry, [rotate] writes
    [new] at index [-1], which is no element of the array, so [new] is not
    valid afterwards.  Refresh does not get that far: a refresh token that
    verifies but is not in the registry is answered 403, and the registry
    is left as it was. *)
Lemma rotate_absent_inserts_nothing :
  let reg := Js.mkArray [Some "kept"] [] in
  let alice := {| id := Some 1; username := "alice"; email := "alice@x.com";
                  role := "customer" |} in
  let old := refreshToken (createTokenPair Plain.jwt no_env 100 alice) in
  let new := refreshToken (createTokenPair Plain.jwt no_env 160 alice) in
  let st := {| validRefreshTokens := reg; users := [] |} in
  (Registry.isValid reg "old" = false
   /\ Registry.isValid (Registry.rotate reg "old" "new") "new" = false
   /\ Js.items (Registry.rotate reg "old" "new") = [Some "kept"]
   /\ Js.props (Registry.rotate reg "old" "new") = [(-1, "new")])
  /\ (Registry.isValid reg old = false
      /\ refreshAccessToken Plain.jwt no_env st 160 (Some old)
         = (reply 403 "Invalid refresh token", st)
      /\ Registry.isValid
           (validRefreshTokens
              (snd (refreshAccessToken Plain.jwt no_env st 160 (Some old))))
           new = false).
Proof. repeat split. Qed.

(** C1 (amended).  Refresh rotates only a token that is in the registry:
    for an absent [old] it answers 403 and leaves the state as it is.  For a
    present [old] that verifies, the registry after the refresh is
    [rotate reg old new]; [new] is valid in it, and [old] is not when it
    occurred once and [new] differs from it. *)
Theorem refresh_rotation
  (J : JwtLib) (env : Env) (st : Server) (now : Z) (old : string) :
  Js.truthy old = true ->
  let reg := validRefreshTokens st in
  let out := refreshAccessToken J env st now (Some old) in
  (Registry.isValid reg old = false ->
   out = (reply 403 "Invalid refresh token", st))
  /\ (forall d,
         Registry.isValid reg old = true ->
         validateRefreshToken J env now old = inr d ->
         let new := refreshToken (createTokenPair J env now (claims d)) in
         status (fst out) = 200
         /\ cookies (fst out) = [SetCookie "refreshToken" new refreshCookieOptions]
         /\ validRefreshTokens (snd out) = Registry.rotate reg old new
         /\ Registry.isValid (validRefreshTokens (snd out)) new = true
         /\ (new <> old -> occurrences reg old = 1%nat ->
             Registry.isValid (validRefreshTokens (snd out)) old = false)).
Proof.
  intros Ht reg out. subst reg out. unfold refreshAccessToken.
  cbn [Js.truthy_opt str]. rewrite Ht. cbn [negb].
  split.
  - intros Habs. now rewrite Habs.
  - intros d Hin Hver. rewrite Hin, Hver. cbn [negb fst snd].
    rewrite payload_eta. cbn [status cookies validRefreshTokens].
    repeat split.
    + now apply RegistryFacts.rotate_new_valid.
    + intros Hne Hone. now apply RegistryFacts.rotate_old_invalid.
Qed.

Lemma refresh_rotation_witness :
  let J := Plain.jwt in
  let p := {| id := Some 1; username := "alice"; email := "alice@x.com";
              role := "customer" |} in
  let old := refreshToken (createTokenPair J no_env 100 p) in
  let new := refreshToken (createTokenPair J no_env 160 p) in
  let st := {| validRefreshTokens := Js.mkArray [Some old] []; users := [] |} in
  let out := refreshAccessToken J no_env st 160 (Some old) in
  status (fst out) = 200
  /\ Registry.isValid (validRefreshTokens (snd out)) new = true
  /\ Registry.isValid (validRefreshTokens (snd out)) old = false.
Proof.
  intros J p old new st out.
  destruct (refresh_rotation J no_env st 160 old eq_refl) as [_ H].
  destruct (H {| claims := p; iat := 100; exp := 100 + REFRESH_TOKEN_EXPIRES |}
              eq_refl eq_refl) as (H1 & _ & _ & H4 & H5).
  split; [exact H1|]. split; [exact H4|].
  apply H5; [discriminate|reflexivity].
Defined.

(* ================================================================== *)
(** ** Logout *)

(** C7.  Logout always answers 200 and clears the cookie; the token of the
    cookie, if any, is not valid afterwards; without a cookie the registry
    stays as it is; and a second logout, with the same cookie or with none,
    answers the same and leaves the state of the first. *)
Theorem logout_total_idempotent (st : Server) (cookie : option string) :
  let out := logoutUser st cookie in
  status (fst out) = 200
  /\ cookies (fst out) = [ClearCookie "refreshToken"]
  /\ (forall t, cookie = Some t -> Js.truthy t = true ->
      Registry.isValid (validRefreshTokens (snd out)) t = false)
  /\ (cookie = None -> snd out = st)
  /\ logoutUser (snd out) cookie = out
  /\ logoutUser (snd out) None = out.
Proof.
  cbn zeta. unfold logoutUser. cbn [fst snd status cookies validRefreshTokens users].
  split; [reflexivity|]. split; [reflexivity|]. split; [|split; [|split]].
  - intros t -> Ht. cbn [Js.truthy_opt str]. rewrite Ht.
    rewrite RegistryFacts.revoke_valid, String.eqb_refl. apply andb_false_r.
  - intros ->. now destruct st.
  - destruct (Js.truthy_opt cookie); [|reflexivity].
    unfold Registry.revoke. now rewrite JsFacts.filter_neq_idem.
  - reflexivity.
Qed.

Lemma logout_total_idempotent_witness :
  let st := {| validRefreshTokens := Js.mkArray [Some "r1"; Some "r2"] [];
               users := [] |} in
  Registry.isValid (validRefreshTokens (snd (logoutUser st (Some "r1")))) "r1"
  = false
  /\ snd (logoutUser st None) = st.
Proof.
  intro st.
  destruct (logout_total_idempotent st (Some "r1")) as (_ & _ & H & _).
  destruct (logout_total_idempotent st None) as (_ & _ & _ & H' & _).
  split; [exact (H "r1" eq_refl eq_refl)|exact (H' eq_refl)].
Defined.

(** C10.  Logout with the token [t] in the cookie removes every element
    equal to [t] and nothing else: [t] is not valid afterwards, every other
    token is valid exactly when it was, as many times as it was, and the
    user table is untouched. *)
Theorem logout_frame (st : Server) (t : string) :
  Js.truthy t = true ->
  let st' := snd (logoutUser st (Some t)) in
  Registry.isValid (validRefreshTokens st') t = false
  /\ (forall t', t' <> t ->
      Registry.isValid (validRefreshTokens st') t'
      = Registry.isValid (validRefreshTokens st) t'
      /\ occurrences (validRefreshTokens st') t'
         = occurrences (validRefreshTokens st) t')
  /\ users st' = users st.
Proof.
  intros Ht. cbn zeta. unfold logoutUser.
  cbn [snd validRefreshTokens users Js.truthy_opt str]. rewrite Ht.
  split; [|split; [|reflexivity]].
  - rewrite RegistryFacts.revoke_valid, String.eqb_refl. apply andb_false_r.
  - intros t' Hne. split.
    + rewrite RegistryFacts.revoke_valid.
      destruct (String.eqb_spec t' t); [contradiction|apply andb_true_r].
    + unfold occurrences, Registry.revoke. now apply JsFacts.count_filter_neq.
Qed.

Lemma logout_frame_witness :
  let st := {| validRefreshTokens :=
                 Js.mkArray [Some "r1"; Some "r2"; Some "r1"] [];
               users := [] |} in
  let st' := snd (logoutUser st (Some "r1")) in
  Registry.isValid (validRefreshTokens st') "r1" = false
  /\ Registry.isValid (validRefreshTokens st') "r2" = true.
Proof.
  intros st st'.
  destruct (logout_frame st "r1" eq_refl) as (H1 & H2 & _).
  split; [exact H1|].
  destruct (H2 "r2") as [H _]; [discriminate|]. exact H.
Defined.

(* ================================================================== *)
(** ** Refresh: the failure paths *)

(** C4.  Without a cookie refresh answers 401; with a token that is not in
    the registry it answers 403; with a token whose verification throws
    (expired or not) it answers 403; the state, and so the registry with
    the stale token in it, is the same after each of them. *)
Theorem refresh_failures
  (J : JwtLib) (env : Env) (st : Server) (now : Z) (cookie : option string) :
  let out := refreshAccessToken J env st now cookie in
  (Js.truthy_opt cookie = false -> status (fst out) = 401 /\ snd out = st)
  /\ (forall t, cookie = Some t -> Js.truthy t = true ->
      Registry.isValid (validRefreshTokens st) t = false ->
      status (fst out) = 403 /\ snd out = st)
  /\ (forall t e, cookie = Some t -> Js.truthy t = true ->
      validateRefreshToken J env now t = inl e ->
      status (fst out) = 403 /\ snd out = st
      /\ Registry.isValid (validRefreshTokens (snd out)) t
         = Registry.isValid (validRefreshTokens st) t).
Proof.
  cbn zeta. unfold refreshAccessToken. split; [|split].
  - intros ->. now split.
  - intros t -> Ht Habs. cbn [Js.truthy_opt str]. rewrite Ht, Habs. now split.
  - intros t e -> Ht Hver. cbn [Js.truthy_opt str]. rewrite Ht. cbn [negb].
    destruct (Registry.isValid (validRefreshTokens st) t) eqn:Hin; cbn [negb].
    + rewrite Hver. cbn [fst snd status reply]. now repeat split.
    + cbn [fst snd status reply]. now repeat split.
Qed.

Lemma refresh_failures_witness :
  let J := Plain.jwt in
  let p := {| id := Some 1; username := "alice"; email := "alice@x.com";
              role := "customer" |} in
  let rt := refreshToken (createTokenPair J no_env 0 p) in
  let st := {| validRefreshTokens := Js.mkArray [Some rt] []; users := [] |} in
  status (fst (refreshAccessToken J no_env st 5 None)) = 401
  /\ status (fst (refreshAccessToken J no_env st 5 (Some "forged"))) = 403
  /\ (status (fst (refreshAccessToken J no_env st 700000 (Some rt))) = 403
      /\ snd (refreshAccessToken J no_env st 700000 (Some rt)) = st).
Proof.
  intros J p rt st.
  destruct (refresh_failures J no_env st 5 None) as (H1 & _ & _).
  destruct (refresh_failures J no_env st 5 (Some "forged")) as (_ & H2 & _).
  destruct (refresh_failures J no_env st 700000 (Some rt)) as (_ & _ & H3).
  split; [exact (proj1 (H1 eq_refl))|].
  split; [exact (proj1 (H2 "forged" eq_refl eq_refl eq_refl))|].
  destruct (H3 rt TokenExpiredError eq_refl eq_refl eq_refl) as (Ha & Hb & _).
  now split.
Defined.

(* ================================================================== *)
(** ** Login: the two failures *)

(** C6.  A login that finds no user and a login whose password does not
    match the user it found get the same response, 401 with the one generic
    message, and neither changes the state. *)
Theorem login_failures_indistinguishable
  (J : JwtLib) (B : BcryptLib) (env : Env)
  (st1 st2 : Server) (now1 now2 : Z) (u1 p1 u2 p2 : string)
  (user : UserRow) (others : Table) :
  Js.truthy u1 = true -> Js.truthy p1 = true ->
  Js.truthy u2 = true -> Js.truthy p2 = true ->
  select_where_username_or_email (users st1) u1 u1 = [] ->
  select_where_username_or_email (users st2) u2 u2 = user :: others ->
  bcrypt_compare B p2 (user_password user) = false ->
  let unknown_user :=
    loginUser J B env st1 now1
      {| login_username := Some u1; login_password := Some p1 |} in
  let wrong_password :=
    loginUser J B env st2 now2
      {| login_username := Some u2; login_password := Some p2 |} in
  fst unknown_user = fst wrong_password
  /\ fst unknown_user = reply 401 "Invalid login credentials"
  /\ snd unknown_user = st1
  /\ snd wrong_password = st2.
Proof.
  intros Hu1 Hp1 Hu2 Hp2 Hnone Hsome Hbad. cbn zeta. unfold loginUser.
  cbn [login_username login_password Js.truthy_opt str].
  rewrite Hu1, Hp1, Hu2, Hp2. cbn [negb orb].
  rewrite Hnone, Hsome, Hbad. cbn [negb fst snd]. now repeat split.
Qed.

Lemma login_failures_indistinguishable_witness :
  let alice := {| user_id := 1; user_username := "alice";
                  user_email := "alice@x.com";
                  user_password := String "#" "Passw0rd";
                  user_role := "customer" |} in
  let st := {| validRefreshTokens := Js.empty; users := [alice] |} in
  fst (loginUser Plain.jwt Plain.bcrypt no_env st 7
         {| login_username := Some "bob"; login_password := Some "Passw0rd" |})
  = fst (loginUser Plain.jwt Plain.bcrypt no_env st 9
           {| login_username := Some "alice"; login_password := Some "guess" |}).
Proof.
  intros alice st.
  exact (proj1 (login_failures_indistinguishable
                  Plain.jwt Plain.bcrypt no_env st st 7 9
                  "bob" "Passw0rd" "alice" "guess" alice []
                  eq_refl eq_refl eq_refl eq_refl eq_refl eq_refl eq_refl)).
Defined.

(* ================================================================== *)
(** ** The token codec *)

(** C5.  The access token of a pair issued for [identity] at time [t]
    verifies, at any time before its expiry, to the claims of [identity]
    (with the issue time and the expiry next to them). *)
Theorem issue_verify_roundtrip
  (J : JwtLib) (env : Env) (identity : Payload) (t now : Z) :
  jwt_roundtrip J ->
  now < t + ACCESS_TOKEN_EXPIRES ->
  exists d,
    validateAccessToken J env now
      (accessToken (createTokenPair J env t identity)) = inr d
    /\ claims d = identity
    /\ iat d = t
    /\ exp d = t + ACCESS_TOKEN_EXPIRES.
Proof.
  intros HJ Hnow. unfold validateAccessToken, createTokenPair.
  cbn [accessToken]. rewrite HJ.
  destruct (Z.ltb_spec now (t + ACCESS_TOKEN_EXPIRES)) as [_|Hge]; [|lia].
  eexists. repeat split.
Qed.

Lemma issue_verify_roundtrip_witness :
  let alice := {| id := Some 1; username := "alice"; email := "alice@x.com";
                  role := "customer" |} in
  exists d,
    validateAccessToken Plain.jwt no_env 130
      (accessToken (createTokenPair Plain.jwt no_env 100 alice)) = inr d
    /\ claims d = alice /\ iat d = 100 /\ exp d = 100 + ACCESS_TOKEN_EXPIRES.
Proof.
  intro alice.
  apply (issue_verify_roundtrip Plain.jwt no_env alice 100 130
           PlainFacts.jwt_roundtrip_holds).
  reflexivity.
Defined.

(** With two different secrets the two classes of token are kept apart:
    each fails the verification of the other class. *)
Lemma isolation_of_distinct_secrets
  (J : JwtLib) (env : Env) (identity : Payload) (t now : Z) :
  jwt_key_bound J ->
  ACCESS_TOKEN_SECRET env <> REFRESH_TOKEN_SECRET env ->
  validateAccessToken J env now
    (refreshToken (createTokenPair J env t identity)) = inl JsonWebTokenError
  /\ validateRefreshToken J env now
       (accessToken (createTokenPair J env t identity)) = inl JsonWebTokenError.
Proof.
  intros HJ Hne. unfold validateAccessToken, validateRefreshToken.
  cbn [createTokenPair accessToken refreshToken].
  split; apply HJ; congruence.
Qed.

(** C2 fails on the code.  Both secrets fall back to the same literal: with
    neither variable set in the environment they are equal, the refresh
    token of a pair passes [validateAccessToken] for as long as it lives,
    and the access token passes [validateRefreshToken]. *)
Theorem default_secrets_not_isolated
  (J : JwtLib) (identity : Payload) (t now : Z) :
  jwt_roundtrip J ->
  now < t + ACCESS_TOKEN_EXPIRES ->
  ACCESS_TOKEN_SECRET no_env = REFRESH_TOKEN_SECRET no_env
  /\ validateAccessToken J no_env now
       (refreshToken (createTokenPair J no_env t identity))
     = inr {| claims := identity; iat := t; exp := t + REFRESH_TOKEN_EXPIRES |}
  /\ validateRefreshToken J no_env now
       (accessToken (createTokenPair J no_env t identity))
     = inr {| claims := identity; iat := t; exp := t + ACCESS_TOKEN_EXPIRES |}.
Proof.
  intros HJ Hnow. split; [reflexivity|].
  unfold validateAccessToken, validateRefreshToken.
  cbn [createTokenPair accessToken refreshToken].
  change (REFRESH_TOKEN_SECRET no_env) with (ACCESS_TOKEN_SECRET no_env).
  rewrite !HJ.
  destruct (Z.ltb_spec now (t + REFRESH_TOKEN_EXPIRES)) as [_|H];
    [|unfold REFRESH_TOKEN_EXPIRES, ACCESS_TOKEN_EXPIRES in *; lia].
  destruct (Z.ltb_spec now (t + ACCESS_TOKEN_EXPIRES)) as [_|H]; [|lia].
  now split.
Qed.

Lemma default_secrets_not_isolated_witness :
  let alice := {| id := Some 1; username := "alice"; email := "alice@x.com";
                  role := "customer" |} in
  validateAccessToken Plain.jwt no_env 130
    (refreshToken (createTokenPair Plain.jwt no_env 100 alice))
  = inr {| claims := alice; iat := 100; exp := 100 + REFRESH_TOKEN_EXPIRES |}.
Proof.
  intro alice.
  exact (proj1 (proj2 (default_secrets_not_isolated Plain.jwt alice 100 130
                         PlainFacts.jwt_roundtrip_holds eq_refl))).
Defined.

(* ================================================================== *)
(** ** The auth gate *)

Module HeaderFacts.

Lemma split_spaceless (t : string) :
  spaceless t = true -> Js.split " " t = [t].
Proof.
  unfold spaceless. induction t as [|c r IH]; simpl; intro H; [reflexivity|].
  apply andb_true_iff in H. destruct H as [Hc Hr].
  apply negb_true_iff in Hc. rewrite Hc, (IH Hr). reflexivity.
Qed.

Lemma split_two_fields (w r : string) :
  spaceless w = true ->
  Js.split " " (two_fields w r) = w :: Js.split " " r.
Proof.
  unfold spaceless, two_fields.
  induction w as [|c w' IH]; simpl; intro H; [reflexivity|].
  apply andb_true_iff in H. destruct H as [Hc Hw].
  apply negb_true_iff in Hc. rewrite Hc, (IH Hw). reflexivity.
Qed.

Lemma two_fields_truthy (w r : string) : Js.truthy (two_fields w r) = true.
Proof. unfold two_fields. now destruct w. Qed.

(** A header of one field carries no token. *)
Lemma one_field_no_token (w : string) :
  spaceless w = true -> Js.truthy_opt (header_token (Some w)) = false.
Proof.
  intro H. unfold header_token, Js.at_index.
  destruct (Js.truthy w) eqn:Hw; [|exact Hw].
  now rewrite (split_spaceless _ H).
Qed.

(** The token is the second field, whatever the first one is. *)
Lemma second_field_token (w t : string) :
  spaceless w = true -> spaceless t = true ->
  header_token (Some (two_fields w t)) = Some t.
Proof.
  intros Hw Ht. unfold header_token, Js.at_index.
  rewrite two_fields_truthy, (split_two_fields _ _ Hw), (split_spaceless _ Ht).
  reflexivity.
Qed.

End HeaderFacts.

(** C3, as stated, fails: the scheme of the header is not looked at.  A
    header [Basic <token>] yields the token, and the request passes when
    the token is a valid access token; [Basic abc] is answered 403, as a
    bad token, not 401. *)
Lemma checkAuth_ignores_the_scheme :
  let alice := {| id := Some 1; username := "alice"; email := "alice@x.com";
                  role := "customer" |} in
  let token := accessToken (createTokenPair Plain.jwt no_env 100 alice) in
  header_token (Some ("Basic " ++ token)) = Some token
  /\ checkAuth Plain.jwt no_env 130 (Some ("Basic " ++ token))
     = Next (Some {| claims := alice; iat := 100; exp := 1000 |})
  /\ checkAuth Plain.jwt no_env 130 (Some "Basic abc")
     = Respond (reply 403 "Invalid access token").
Proof. repeat split. Qed.

(** C3 (amended).  The token is the second space-separated field of the
    Authorization header, whatever the first field is.  A request without
    the header, or with a header of one field, or with an empty second
    field, is answered 401.  Otherwise the token is verified: an expired
    one is answered 401 with [expired: true], any other failure 403 without
    that flag, and on success the request goes on with the decoded claims
    attached. *)
Theorem checkAuth_gate (J : JwtLib) (env : Env) (now : Z) :
  checkAuth J env now None = Respond (reply 401 "Access token is required")
  /\ (forall w, spaceless w = true ->
      checkAuth J env now (Some w)
      = Respond (reply 401 "Access token is required"))
  /\ (forall scheme, spaceless scheme = true ->
      checkAuth J env now (Some (two_fields scheme ""))
      = Respond (reply 401 "Access token is required"))
  /\ (forall scheme t,
      spaceless scheme = true -> spaceless t = true -> Js.truthy t = true ->
      let out := checkAuth J env now (Some (two_fields scheme t)) in
      match validateAccessToken J env now t with
      | inr d => out = Next (Some d)
      | inl TokenExpiredError =>
          exists r, out = Respond r /\ status r = 401
                    /\ field "expired" (body r) = Some (JBool true)
      | inl _ =>
          exists r, out = Respond r /\ status r = 403
                    /\ field "expired" (body r) = None
      end).
Proof.
  split; [reflexivity|]. split; [|split].
  - intros w Hw. unfold checkAuth.
    now rewrite (HeaderFacts.one_field_no_token _ Hw).
  - intros scheme Hs. unfold checkAuth.
    now rewrite (HeaderFacts.second_field_token scheme "" Hs eq_refl).
  - intros scheme t Hs Ht Htr. cbn zeta. unfold checkAuth.
    rewrite (HeaderFacts.second_field_token _ _ Hs Ht).
    cbn [Js.truthy_opt str]. rewrite Htr. cbn [negb].
    destruct (validateAccessToken J env now t) as [[| |]|d].
    + eexists. repeat split.
    + eexists. repeat split.
    + eexists. repeat split.
    + reflexivity.
Qed.

Lemma checkAuth_gate_witness :
  let alice := {| id := Some 1; username := "alice"; email := "alice@x.com";
                  role := "customer" |} in
  let token := accessToken (createTokenPair Plain.jwt no_env 100 alice) in
  checkAuth Plain.jwt no_env 130 (Some "Bearer")
  = Respond (reply 401 "Access token is required")
  /\ checkAuth Plain.jwt no_env 130 (Some (two_fields "Bearer" token))
     = Next (Some {| claims := alice; iat := 100; exp := 1000 |})
  /\ exists r,
       checkAuth Plain.jwt no_env 5000 (Some (two_fields "Bearer" token))
       = Respond r
       /\ status r = 401 /\ field "expired" (body r) = Some (JBool true).
Proof.
  intros alice token.
  destruct (checkAuth_gate Plain.jwt no_env 130) as (_ & H1 & _ & H2).
  destruct (checkAuth_gate Plain.jwt no_env 5000) as (_ & _ & _ & H3).
  split; [exact (H1 "Bearer" eq_refl)|].
  split; [exact (H2 "Bearer" token eq_refl eq_refl eq_refl)|].
  exact (H3 "Bearer" token eq_refl eq_refl eq_refl).
Defined.

(* ================================================================== *)
(** ** Registration *)

Module TableFacts.




End TableFacts.





Module ValidationFacts.

Lemma check_passed (ok : bool) (value : option string) (path msg : string) :
  Validator.check ok value path msg = [] -> ok = true.
Proof. destruct ok; [reflexivity|discriminate]. Qed.



(** What a body without validation errors went through. *)
Lemma passed (V : ValidatorLib) (b : RegisterBody) :
  fst (validateRegistration V b) = [] ->
  Validator.isLength 3 (Some 50%nat) (str (reg_username b)) = true
  /\ Validator.matches_word (str (reg_username b)) = true
  /\ isEmail V (str (reg_email b)) = true
  /\ Validator.isLength 6 None (str (reg_password b)) = true
  /\ Validator.matches_password (str (reg_password b)) = true
  /\ match reg_role b with
     | Some r => r = "admin" \/ r = "customer"
     | None => True
     end.
Proof.
  unfold validateRegistration. cbn [fst]. intro H.
  repeat (apply app_eq_nil in H; destruct H as [? H]).
  repeat match goal with
         | E : Validator.check _ _ _ _ = [] |- _ => apply check_passed in E
         end.
  repeat (split; [assumption|]).
  destruct (reg_role b) as [r|]; [|exact I].
  apply check_passed in H. unfold Validator.isIn in H. simpl in H.
  apply orb_true_iff in H. destruct H as [H|H].
  - left. now apply String.eqb_eq in H.
  - rewrite orb_false_r in H. right. now apply String.eqb_eq in H.
Qed.

End ValidationFacts.



(* ================================================================== *)
(** ** Scenarios *)

Module Scenarios.
Import Scenario.

(** Login, then refresh a minute later: the cookie changes, the old
    refresh token is out and a replay of it is answered 403. *)
Example login_then_refresh :
  let (r1, st1) := login start 100 in
  let (r2, st2) := refresh st1 160 (cookie_of r1) in
  status r1 = 200 /\ status r2 = 200
  /\ cookie_of r1 <> cookie_of r2
  /\ Registry.isValid (validRefreshTokens st2) (str (cookie_of r1)) = false
  /\ Registry.isValid (validRefreshTokens st2) (str (cookie_of r2)) = true
  /\ status (fst (refresh st2 170 (cookie_of r1))) = 403.
Proof. vm_compute. repeat split; discriminate. Qed.

(** Two logins of one user within a second get the same refresh token,
    which then sits twice in the registry; rotating it out leaves the
    second copy, and the old token still refreshes. *)
Example two_logins_in_one_second :
  let (r1, st1) := login start 100 in
  let (r2, st2) := login st1 100 in
  let (r3, st3) := refresh st2 160 (cookie_of r1) in
  cookie_of r1 = cookie_of r2
  /\ occurrences (validRefreshTokens st2) (str (cookie_of r1)) = 2%nat
  /\ status r3 = 200
  /\ Registry.isValid (validRefreshTokens st3) (str (cookie_of r1)) = true
  /\ status (fst (refresh st3 170 (cookie_of r1))) = 200.
Proof. vm_compute. repeat split. Qed.

(** A refresh within the second of the login signs the same claims at
    the same time: the new refresh token is the old one. *)
Example refresh_in_the_second_of_login :
  let (r1, st1) := login start 100 in
  let (r2, st2) := refresh st1 100 (cookie_of r1) in
  status r2 = 200
  /\ cookie_of r2 = cookie_of r1
  /\ Registry.isValid (validRefreshTokens st2) (str (cookie_of r1)) = true.
Proof. vm_compute. repeat split. Qed.

End Scenarios.


(* ================================================================== *)
(** ** Invariants of the states the router goes through *)

Module InvariantFacts.

Lemma tidy_push (reg : Js.array) (v : string) :
  tidy reg -> tidy (Js.push reg v).
Proof.
  intros [Hp Hi]. split; [exact Hp|].
  unfold Js.push; simpl. apply Forall_app. split; [exact Hi|].
  constructor; [discriminate|constructor].
Qed.

Lemma tidy_revoke (reg : Js.array) (t : string) :
  tidy (Registry.revoke reg t).
Proof.
  split; [reflexivity|].
  unfold Registry.revoke, Js.filter_neq; simpl.
  induction (Js.items reg) as [|x r IH]; simpl; [constructor|].
  destruct x as [s|]; [|exact IH].
  destruct (negb (String.eqb s t)); [|exact IH].
  constructor; [discriminate|exact IH].
Qed.

Lemma rotate_present_props (reg : Js.array) (old new : string) :
  Registry.isValid reg old = true ->
  Js.props (Registry.rotate reg old new) = Js.props reg.
Proof.
  intro H. unfold Registry.rotate, Js.assign, Js.indexOf.
  destruct (JsFacts.index_from_shift (Js.items reg) old 0 H) as [_ Hpos].
  destruct (Z.ltb_spec (Js.index_from 0 (Js.items reg) old) 0) as [Hneg|_];
    [lia|reflexivity].
Qed.

Lemma replace_first_full (old new : string) (l : list (option string)) :
  Forall (fun x => x <> None) l ->
  Forall (fun x => x <> None) (replace_first old new l).
Proof.
  induction 1 as [|x r Hx Hr IH]; simpl; [constructor|].
  destruct (Js.slot_is old x); constructor; try assumption. discriminate.
Qed.

Lemma replace_first_length (old new : string) (l : list (option string)) :
  List.length (replace_first old new l) = List.length l.
Proof.
  induction l as [|x r IH]; simpl; [reflexivity|].
  destruct (Js.slot_is old x); simpl; [reflexivity|now rewrite IH].
Qed.

Lemma replace_first_origin (old new t : string) (l : list (option string)) :
  existsb (Js.slot_is t) (replace_first old new l) = true ->
  existsb (Js.slot_is t) l = true \/ t = new.
Proof.
  induction l as [|x r IH]; simpl; [discriminate|].
  destruct (Js.slot_is old x) eqn:Hx; simpl.
  - intro H. apply orb_true_iff in H. destruct H as [H|H].
    + right. symmetry. now apply String.eqb_eq.
    + left. rewrite H. apply orb_true_r.
  - intro H. apply orb_true_iff in H. destruct H as [H|H].
    + left. now rewrite H.
    + destruct (IH H) as [H'|H']; [left|now right].
      rewrite H'. apply orb_true_r.
Qed.

Lemma tidy_rotate (reg : Js.array) (old new : string) :
  Registry.isValid reg old = true -> tidy reg ->
  tidy (Registry.rotate reg old new).
Proof.
  intros H [Hp Hi]. split.
  - now rewrite (rotate_present_props _ _ _ H).
  - rewrite (RegistryFacts.rotate_present_items _ _ _ H).
    now apply replace_first_full.
Qed.

Lemma issued_push (J : JwtLib) (env : Env) (reg : Js.array) (now : Z)
  (p : Payload) :
  issued J env reg ->
  issued J env (Js.push reg (refreshToken (createTokenPair J env now p))).
Proof.
  intros H t Ht. unfold Registry.isValid in Ht.
  rewrite JsFacts.includes_push in Ht. apply orb_true_iff in Ht.
  destruct Ht as [Ht|Ht]; [now apply H|].
  apply String.eqb_eq in Ht. subst t. now exists p, now.
Qed.

Lemma issued_revoke (J : JwtLib) (env : Env) (reg : Js.array) (t0 : string) :
  issued J env reg -> issued J env (Registry.revoke reg t0).
Proof.
  intros H t Ht. rewrite RegistryFacts.revoke_valid in Ht.
  apply andb_true_iff in Ht. now apply H.
Qed.

Lemma issued_rotate (J : JwtLib) (env : Env) (reg : Js.array) (old : string)
  (now : Z) (p : Payload) :
  Registry.isValid reg old = true -> issued J env reg ->
  issued J env
    (Registry.rotate reg old (refreshToken (createTokenPair J env now p))).
Proof.
  intros Hold H t Ht. unfold Registry.isValid, Js.includes in Ht.
  rewrite (RegistryFacts.rotate_present_items _ _ _ Hold) in Ht.
  apply replace_first_origin in Ht. destruct Ht as [Ht|Ht].
  - now apply H.
  - subst t. now exists p, now.
Qed.

(** The four controllers, one after the other. *)

Lemma registerUser_registry (J : JwtLib) (B : BcryptLib) (D : Database)
  (env : Env) (st : Server) (now : Z) (b : RegisterBody) :
  validRefreshTokens (snd (registerUser J B D env st now b))
  = validRefreshTokens st
  \/ exists p,
      validRefreshTokens (snd (registerUser J B D env st now b))
      = Js.push (validRefreshTokens st)
          (refreshToken (createTokenPair J env now p)).
Proof.
  unfold registerUser.
  destruct (negb (Js.truthy_opt (reg_username b))
            || negb (Js.truthy_opt (reg_email b))
            || negb (Js.truthy_opt (reg_password b))); [now left|].
  destruct (0 <? _); [now left|].
  destruct (executeQuery _ _); [|now left].
  right. eexists. reflexivity.
Qed.

Lemma loginUser_registry (J : JwtLib) (B : BcryptLib) (env : Env)
  (st : Server) (now : Z) (b : LoginBody) :
  users (snd (loginUser J B env st now b)) = users st
  /\ (validRefreshTokens (snd (loginUser J B env st now b))
      = validRefreshTokens st
      \/ exists p,
          validRefreshTokens (snd (loginUser J B env st now b))
          = Js.push (validRefreshTokens st)
              (refreshToken (createTokenPair J env now p))).
Proof.
  unfold loginUser.
  destruct (negb (Js.truthy_opt (login_username b))
            || negb (Js.truthy_opt (login_password b))); [now split; [|left]|].
  destruct (select_where_username_or_email _ _ _) as [|user rest];
    [now split; [|left]|].
  destruct (negb (bcrypt_compare B _ _)); [now split; [|left]|].
  split; [reflexivity|]. right. eexists. reflexivity.
Qed.

Lemma refreshAccessToken_registry (J : JwtLib) (env : Env)
  (st : Server) (now : Z) (cookie : option string) :
  users (snd (refreshAccessToken J env st now cookie)) = users st
  /\ (validRefreshTokens (snd (refreshAccessToken J env st now cookie))
      = validRefreshTokens st
      \/ exists p,
          Registry.isValid (validRefreshTokens st) (str cookie) = true
          /\ validRefreshTokens (snd (refreshAccessToken J env st now cookie))
             = Registry.rotate (validRefreshTokens st) (str cookie)
                 (refreshToken (createTokenPair J env now p))).
Proof.
  unfold refreshAccessToken.
  destruct (negb (Js.truthy_opt cookie)); [now split; [|left]|].
  destruct (Registry.isValid (validRefreshTokens st) (str cookie)) eqn:Hin;
    cbn [negb]; [|now split; [|left]].
  destruct (validateRefreshToken J env now (str cookie)) as [e|d];
    [now split; [|left]|].
  split; [reflexivity|]. right. eexists. split; reflexivity.
Qed.

Lemma post_register_registry (J : JwtLib) (B : BcryptLib) (V : ValidatorLib)
  (D : Database) (env : Env) (st : Server) (now : Z) (b : RegisterBody) :
  validRefreshTokens (snd (post_register J B V D env st now b))
  = validRefreshTokens st
  \/ exists p,
      validRefreshTokens (snd (post_register J B V D env st now b))
      = Js.push (validRefreshTokens st)
          (refreshToken (createTokenPair J env now p)).
Proof.
  unfold post_register.
  destruct (validateRegistration V b) as [errors b'].
  destruct (checkValidationErrors errors); [now left|].
  apply registerUser_registry.
Qed.

Lemma post_login_registry (J : JwtLib) (B : BcryptLib) (env : Env)
  (st : Server) (now : Z) (b : LoginBody) :
  users (snd (post_login J B env st now b)) = users st
  /\ (validRefreshTokens (snd (post_login J B env st now b))
      = validRefreshTokens st
      \/ exists p,
          validRefreshTokens (snd (post_login J B env st now b))
          = Js.push (validRefreshTokens st)
              (refreshToken (createTokenPair J env now p))).
Proof.
  unfold post_login.
  destruct (validateLogin b) as [errors b'].
  destruct (checkValidationErrors errors); [now split; [|left]|].
  apply loginUser_registry.
Qed.

Lemma registerUser_users (J : JwtLib) (B : BcryptLib) (D : Database)
  (env : Env) (st : Server) (now : Z) (b : RegisterBody) :
  users (snd (registerUser J B D env st now b)) = users st
  \/ (select_where_username_or_email (users st)
        (str (reg_username b)) (str (reg_email b)) = []
      /\ Js.truthy_opt (reg_username b) = true
      /\ Js.truthy_opt (reg_email b) = true
      /\ Js.truthy_opt (reg_password b) = true
      /\ users (snd (registerUser J B D env st now b))
         = (users st
            ++ [{| user_id := insert_id D (users st);
                   user_username := str (reg_username b);
                   user_email := str (reg_email b);
                   user_password := bcrypt_hash B (str (reg_password b)) 12;
                   user_role := requested_role b |}])%list).
Proof.
  unfold registerUser.
  destruct (Js.truthy_opt (reg_username b)); cbn [negb orb]; [|now left].
  destruct (Js.truthy_opt (reg_email b)); cbn [negb orb]; [|now left].
  destruct (Js.truthy_opt (reg_password b)); cbn [negb orb]; [|now left].
  destruct (select_where_username_or_email _ _ _) as [|row rest] eqn:Hsel;
    [|now left].
  right. unfold insert_user. destruct (executeQuery _ _); now repeat split.
Qed.

Lemma serve_invariant (J : JwtLib) (B : BcryptLib) (V : ValidatorLib)
  (D : Database) (env : Env) (P : Server -> Prop) :
  (forall st now req, P st -> P (snd (auth_router J B V D env st now req))) ->
  forall trace st, P st -> P (serve J B V D env st trace).
Proof.
  intros Hstep trace. induction trace as [|[now req] rest IH]; intros st H.
  - exact H.
  - simpl. apply IH. now apply Hstep.
Qed.

End InvariantFacts.

(** X1.  Whatever requests the router serves, the registry stays an array
    without holes and without stray properties: the guard of the refresh
    handler keeps the assignment at index [-1] from ever running. *)
Theorem router_keeps_registry_tidy
  (J : JwtLib) (B : BcryptLib) (V : ValidatorLib) (D : Database) (env : Env)
  (st : Server) (trace : list (Z * AuthRequest)) :
  tidy (validRefreshTokens st) ->
  tidy (validRefreshTokens (serve J B V D env st trace)).
Proof.
  revert st.
  apply (InvariantFacts.serve_invariant J B V D env
           (fun s => tidy (validRefreshTokens s))).
  intros st now [b|b|cookie|cookie] H; cbn [auth_router].
  - destruct (InvariantFacts.post_register_registry J B V D env st now b)
      as [E|[p E]]; rewrite E; [exact H|now apply InvariantFacts.tidy_push].
  - destruct (InvariantFacts.post_login_registry J B env st now b)
      as [_ [E|[p E]]]; rewrite E; [exact H|now apply InvariantFacts.tidy_push].
  - destruct (InvariantFacts.refreshAccessToken_registry J env st now cookie)
      as [_ [E|[p [Hin E]]]]; rewrite E;
      [exact H|now apply InvariantFacts.tidy_rotate].
  - unfold logoutUser. cbn [snd validRefreshTokens].
    destruct (Js.truthy_opt cookie); [apply InvariantFacts.tidy_revoke|exact H].
Qed.

Lemma router_keeps_registry_tidy_witness :
  tidy (validRefreshTokens
          (serve Plain.jwt Plain.bcrypt Plain.validator Plain.database no_env
             {| validRefreshTokens := Js.empty; users := [] |}
             [(100, PostRegister
                      {| reg_username := Some "alice";
                         reg_email := Some "alice@x.com";
                         reg_password := Some "Passw0rd";
                         reg_role := None |});
              (160, PostRefresh (Some "forged"));
              (170, PostLogout None)])).
Proof.
  apply router_keeps_registry_tidy.
  split; [reflexivity|constructor].
Defined.

(** X2.  Whatever requests the router serves, every token of the registry
    is the refresh token of a pair the codec issued; no request puts a
    string of the client's choosing there. *)
Theorem router_registers_issued_tokens_only
  (J : JwtLib) (B : BcryptLib) (V : ValidatorLib) (D : Database) (env : Env)
  (st : Server) (trace : list (Z * AuthRequest)) :
  issued J env (validRefreshTokens st) ->
  issued J env (validRefreshTokens (serve J B V D env st trace)).
Proof.
  revert st.
  apply (InvariantFacts.serve_invariant J B V D env
           (fun s => issued J env (validRefreshTokens s))).
  intros st now [b|b|cookie|cookie] H; cbn [auth_router].
  - destruct (InvariantFacts.post_register_registry J B V D env st now b)
      as [E|[p E]]; rewrite E; [exact H|now apply InvariantFacts.issued_push].
  - destruct (InvariantFacts.post_login_registry J B env st now b)
      as [_ [E|[p E]]]; rewrite E;
      [exact H|now apply InvariantFacts.issued_push].
  - destruct (InvariantFacts.refreshAccessToken_registry J env st now cookie)
      as [_ [E|[p [Hin E]]]]; rewrite E;
      [exact H|now apply InvariantFacts.issued_rotate].
  - unfold logoutUser. cbn [snd validRefreshTokens].
    destruct (Js.truthy_opt cookie);
      [now apply InvariantFacts.issued_revoke|exact H].
Qed.

Lemma router_registers_issued_tokens_only_witness :
  issued Plain.jwt no_env
    (validRefreshTokens
       (serve Plain.jwt Plain.bcrypt Plain.validator Plain.database no_env
          {| validRefreshTokens := Js.empty; users := [] |}
          [(100, PostRegister
                   {| reg_username := Some "alice";
                      reg_email := Some "alice@x.com";
                      reg_password := Some "Passw0rd";
                      reg_role := None |});
           (160, PostRefresh (Some "forged"))])).
Proof.
  apply router_registers_issued_tokens_only.
  intros t Ht. discriminate Ht.
Defined.

Lemma post_register_users
  (J : JwtLib) (B : BcryptLib) (V : ValidatorLib) (D : Database) (env : Env)
  (st : Server) (now : Z) (b : RegisterBody) :
  users (snd (post_register J B V D env st now b)) = users st
  \/ (fst (validateRegistration V b) = []
      /\ select_where_username_or_email (users st)
           (str (reg_username b)) (normalizeEmail V (str (reg_email b))) = []
      /\ users (snd (post_register J B V D env st now b))
         = (users st
            ++ [{| user_id := insert_id D (users st);
                   user_username := str (reg_username b);
                   user_email := normalizeEmail V (str (reg_email b));
                   user_password := bcrypt_hash B (str (reg_password b)) 12;
                   user_role := requested_role b |}])%list).
Proof.
  unfold post_register.
  destruct (validateRegistration V b) as [errors b'] eqn:Hval.
  destruct errors as [|e errors]; cbn [checkValidationErrors fst];
    [|now left].
  unfold validateRegistration in Hval. injection Hval as Herr Hb'.
  destruct (InvariantFacts.registerUser_users J B D env st now b')
    as [E|(Hsel & _ & _ & _ & E)]; [now left|].
  right. subst b'. cbn [reg_username reg_email reg_password str] in *.
  unfold requested_role in *. cbn [reg_role] in E.
  split; [reflexivity|]. split; [exact Hsel|exact E].
Qed.

(** X4.  Every row the router adds to the user table went through the
    rules of the registration route: a row of the table after any requests
    is a row of the table before them, or its username is 3 to 50 word
    characters, its role is [admin] or [customer], its address is the
    normal form of an accepted one, and its password column holds the
    12-round hash of a password that passed the rules, never the password
    itself. *)
Theorem router_stores_validated_rows
  (J : JwtLib) (B : BcryptLib) (V : ValidatorLib) (D : Database) (env : Env)
  (st : Server) (trace : list (Z * AuthRequest)) (row : UserRow) :
  In row (users (serve J B V D env st trace)) ->
  In row (users st) \/ validated B V row.
Proof.
  revert row.
  apply (InvariantFacts.serve_invariant J B V D env
           (fun s => forall row, In row (users s) ->
                                 In row (users st) \/ validated B V row));
    [|now left].
  intros s now [b|b|cookie|cookie] H row; cbn [auth_router].
  - destruct (post_register_users J B V D env s now b) as [E|(Hpass & _ & E)];
      rewrite E; [apply H|].
    intro Hin. apply in_app_or in Hin. destruct Hin as [Hin|[<-|[]]];
      [now apply H|]. right.
    destruct (ValidationFacts.passed V b Hpass)
      as (Hu1 & Hu2 & He & Hp1 & Hp2 & Hr).
    unfold validated. cbn [user_username user_email user_password user_role].
    split; [exact Hu1|]. split; [exact Hu2|]. split; [|split].
    + unfold requested_role. destruct (reg_role b); [exact Hr|now right].
    + now exists (str (reg_email b)).
    + now exists (str (reg_password b)).
  - rewrite (proj1 (InvariantFacts.post_login_registry J B env s now b)).
    apply H.
  - rewrite (proj1 (InvariantFacts.refreshAccessToken_registry
                      J env s now cookie)).
    apply H.
  - apply H.
Qed.

Lemma router_stores_validated_rows_witness :
  let seeded := {| user_id := 1; user_username := "admin";
                   user_email := "admin@x.com"; user_password := "admin123";
                   user_role := "admin" |} in
  let alice := {| user_id := 2; user_username := "alice";
                  user_email := "alice@x.com";
                  user_password := String "#" "Passw0rd";
                  user_role := "customer" |} in
  In alice
    (users
       (serve Plain.jwt Plain.bcrypt Plain.validator Plain.database no_env
          {| validRefreshTokens := Js.empty; users := [seeded] |}
          [(100, PostRegister
                   {| reg_username := Some "alice";
                      reg_email := Some "alice@x.com";
                      reg_password := Some "Passw0rd";
                      reg_role := None |})]))
  /\ validated Plain.bcrypt Plain.validator alice.
Proof.
  intros seeded alice.
  assert (Hin : In alice
                  (users
                     (serve Plain.jwt Plain.bcrypt Plain.validator
                        Plain.database no_env
                        {| validRefreshTokens := Js.empty;
                           users := [seeded] |}
                        [(100, PostRegister
                                 {| reg_username := Some "alice";
                                    reg_email := Some "alice@x.com";
                                    reg_password := Some "Passw0rd";
                                    reg_role := None |})])))
    by (right; left; reflexivity).
  split; [exact Hin|].
  destruct (router_stores_validated_rows _ _ _ _ _ _ _ _ Hin) as [[H|[]]|H];
    [discriminate H|exact H].
Defined.

(* ================================================================== *)
(** ** Sessions: how the handlers compose *)

(** X5.  A refresh token is of no use after a logout that named it: the
    next refresh with it is answered 403 and changes nothing, at any time
    and whether or not the token would still verify. *)
Theorem revoked_token_cannot_refresh
  (J : JwtLib) (env : Env) (st : Server) (now : Z) (t : string) :
  Js.truthy t = true ->
  let st' := snd (logoutUser st (Some t)) in
  refreshAccessToken J env st' now (Some t)
  = (reply 403 "Invalid refresh token", st').
Proof.
  intro Ht. cbn zeta. unfold refreshAccessToken, logoutUser.
  cbn [snd validRefreshTokens Js.truthy_opt str]. rewrite Ht. cbn [negb].
  rewrite RegistryFacts.revoke_valid, String.eqb_refl, andb_false_r.
  reflexivity.
Qed.

Lemma revoked_token_cannot_refresh_witness :
  let p := {| id := Some 1; username := "alice"; email := "alice@x.com";
              role := "customer" |} in
  let rt := refreshToken (createTokenPair Plain.jwt no_env 100 p) in
  let st := {| validRefreshTokens := Js.mkArray [Some rt] []; users := [] |} in
  status (fst (refreshAccessToken Plain.jwt no_env
                 (snd (logoutUser st (Some rt))) 130 (Some rt))) = 403.
Proof.
  intros p rt st.
  now rewrite (revoked_token_cannot_refresh Plain.jwt no_env st 130 rt eq_refl).
Defined.

(** X6.  A refresh token works once: after a refresh that rotated it out
    (it was in the registry once and the new token differs from it), a
    second refresh with it is answered 403 and changes nothing. *)
Theorem rotated_token_cannot_refresh
  (J : JwtLib) (env : Env) (st : Server) (now later : Z) (old : string)
  (d : Decoded) :
  Js.truthy old = true ->
  Registry.isValid (validRefreshTokens st) old = true ->
  occurrences (validRefreshTokens st) old = 1%nat ->
  validateRefreshToken J env now old = inr d ->
  refreshToken (createTokenPair J env now (claims d)) <> old ->
  let st' := snd (refreshAccessToken J env st now (Some old)) in
  refreshAccessToken J env st' later (Some old)
  = (reply 403 "Invalid refresh token", st').
Proof.
  intros Ht Hin Hone Hver Hne. cbn zeta.
  assert (E : snd (refreshAccessToken J env st now (Some old))
              = {| validRefreshTokens :=
                     Registry.rotate (validRefreshTokens st) old
                       (refreshToken (createTokenPair J env now (claims d)));
                   users := users st |}).
  { unfold refreshAccessToken. cbn [Js.truthy_opt str].
    rewrite Ht, Hin, Hver. cbn [negb snd]. now rewrite payload_eta. }
  rewrite E. unfold refreshAccessToken at 1.
  cbn [Js.truthy_opt str validRefreshTokens]. rewrite Ht. cbn [negb].
  now rewrite (RegistryFacts.rotate_old_invalid _ _ _ Hin Hne Hone).
Qed.

Lemma rotated_token_cannot_refresh_witness :
  let p := {| id := Some 1; username := "alice"; email := "alice@x.com";
              role := "customer" |} in
  let rt := refreshToken (createTokenPair Plain.jwt no_env 100 p) in
  let st := {| validRefreshTokens := Js.mkArray [Some rt] []; users := [] |} in
  status (fst (refreshAccessToken Plain.jwt no_env
                 (snd (refreshAccessToken Plain.jwt no_env st 160 (Some rt)))
                 170 (Some rt))) = 403.
Proof.
  intros p rt st.
  rewrite (rotated_token_cannot_refresh Plain.jwt no_env st 160 170 rt
             {| claims := p; iat := 100; exp := 100 + REFRESH_TOKEN_EXPIRES |}
             eq_refl eq_refl eq_refl eq_refl);
    [reflexivity|discriminate].
Defined.

(** X7.  A refresh that succeeds touches one element of the registry: the
    registry has as many elements as before, every token other than the
    old and the new one is valid exactly when it was, and the user table
    is the same. *)
Theorem refresh_frame
  (J : JwtLib) (env : Env) (st : Server) (now : Z) (old : string)
  (d : Decoded) :
  Js.truthy old = true ->
  Registry.isValid (validRefreshTokens st) old = true ->
  validateRefreshToken J env now old = inr d ->
  let new := refreshToken (createTokenPair J env now (claims d)) in
  let st' := snd (refreshAccessToken J env st now (Some old)) in
  List.length (Js.items (validRefreshTokens st'))
  = List.length (Js.items (validRefreshTokens st))
  /\ (forall t, t <> old -> t <> new ->
      Registry.isValid (validRefreshTokens st') t
      = Registry.isValid (validRefreshTokens st) t)
  /\ users st' = users st.
Proof.
  intros Ht Hin Hver. cbn zeta. unfold refreshAccessToken.
  cbn [Js.truthy_opt str]. rewrite Ht, Hin, Hver.
  cbn [negb snd validRefreshTokens users]. rewrite payload_eta.
  split; [|split; [|reflexivity]].
  - rewrite (RegistryFacts.rotate_present_items _ _ _ Hin).
    apply InvariantFacts.replace_first_length.
  - intros t Ho Hn. now apply RegistryFacts.rotate_other.
Qed.

Lemma refresh_frame_witness :
  let p := {| id := Some 1; username := "alice"; email := "alice@x.com";
              role := "customer" |} in
  let rt := refreshToken (createTokenPair Plain.jwt no_env 100 p) in
  let st := {| validRefreshTokens := Js.mkArray [Some "other"; Some rt] [];
               users := [] |} in
  let st' := snd (refreshAccessToken Plain.jwt no_env st 160 (Some rt)) in
  List.length (Js.items (validRefreshTokens st')) = 2%nat
  /\ Registry.isValid (validRefreshTokens st') "other" = true.
Proof.
  intros p rt st st'.
  destruct (refresh_frame Plain.jwt no_env st 160 rt
              {| claims := p; iat := 100; exp := 100 + REFRESH_TOKEN_EXPIRES |}
              eq_refl eq_refl eq_refl) as (H1 & H2 & _).
  split; [exact H1|].
  subst st'. rewrite H2; [reflexivity|discriminate|discriminate].
Defined.

(** X8.  Refresh never reads the user table: the response and the registry
    it leaves are the same whatever the table holds, and the new pair is
    signed over the claims of the old refresh token, so a change of role
    or the removal of the user does not show in refreshed tokens. *)
Theorem refresh_ignores_the_user_table
  (J : JwtLib) (env : Env) (reg : Js.array) (t1 t2 : Table) (now : Z)
  (cookie : option string) :
  let out1 :=
    refreshAccessToken J env {| validRefreshTokens := reg; users := t1 |}
      now cookie in
  let out2 :=
    refreshAccessToken J env {| validRefreshTokens := reg; users := t2 |}
      now cookie in
  fst out1 = fst out2
  /\ validRefreshTokens (snd out1) = validRefreshTokens (snd out2)
  /\ (forall d,
      Js.truthy_opt cookie = true ->
      Registry.isValid reg (str cookie) = true ->
      validateRefreshToken J env now (str cookie) = inr d ->
      body (fst out1)
      = JObj [("accessToken",
               JStr (accessToken (createTokenPair J env now (claims d))));
              ("user", user_json (claims d))]).
Proof.
  cbn zeta. unfold refreshAccessToken. cbn [validRefreshTokens users].
  destruct (Js.truthy_opt cookie); cbn [negb];
    [|split; [reflexivity|split; [reflexivity|discriminate]]].
  destruct (Registry.isValid reg (str cookie)); cbn [negb];
    [|split; [reflexivity|split; [reflexivity|discriminate]]].
  destruct (validateRefreshToken J env now (str cookie)) as [e|d0];
    [split; [reflexivity|split; [reflexivity|discriminate]]|].
  cbn [fst snd validRefreshTokens body]. rewrite payload_eta.
  split; [reflexivity|]. split; [reflexivity|].
  intros d _ _ Hd. injection Hd as <-. reflexivity.
Qed.

Lemma refresh_ignores_the_user_table_witness :
  let p := {| id := Some 1; username := "alice"; email := "alice@x.com";
              role := "admin" |} in
  let rt := refreshToken (createTokenPair Plain.jwt no_env 100 p) in
  let reg := Js.mkArray [Some rt] [] in
  body (fst (refreshAccessToken Plain.jwt no_env
               {| validRefreshTokens := reg; users := [] |} 160 (Some rt)))
  = JObj [("accessToken",
           JStr (accessToken (createTokenPair Plain.jwt no_env 160 p)));
          ("user", user_json p)].
Proof.
  intros p rt reg.
  destruct (refresh_ignores_the_user_table Plain.jwt no_env reg [] [] 160
              (Some rt)) as (_ & _ & H).
  exact (H {| claims := p; iat := 100; exp := 100 + REFRESH_TOKEN_EXPIRES |}
           eq_refl eq_refl eq_refl).
Defined.

(** X9.  A login with the password of the first row that matches the
    username or the email answers 200 with a pair signed over that row's
    id, username, email and role (whichever of the two the request named
    the user by); the user object of the body has those four keys only; the
    refresh token is added to the registry, every token that was valid
    stays valid, and the user table is the same. *)
Theorem login_success
  (J : JwtLib) (B : BcryptLib) (env : Env) (st : Server) (now : Z)
  (u p : string) (user : UserRow) (others : Table) :
  Js.truthy u = true -> Js.truthy p = true ->
  select_where_username_or_email (users st) u u = user :: others ->
  bcrypt_compare B p (user_password user) = true ->
  let out :=
    loginUser J B env st now
      {| login_username := Some u; login_password := Some p |} in
  let identity :=
    {| id := Some (user_id user); username := user_username user;
       email := user_email user; role := user_role user |} in
  let tokens := createTokenPair J env now identity in
  status (fst out) = 200
  /\ field "accessToken" (body (fst out)) = Some (JStr (accessToken tokens))
  /\ field "user" (body (fst out)) = Some (user_json identity)
  /\ keys (user_json identity) = ["id"; "username"; "email"; "role"]
  /\ cookies (fst out)
     = [SetCookie "refreshToken" (refreshToken tokens) refreshCookieOptions]
  /\ Registry.isValid (validRefreshTokens (snd out)) (refreshToken tokens) = true
  /\ (forall t, Registry.isValid (validRefreshTokens st) t = true ->
                Registry.isValid (validRefreshTokens (snd out)) t = true)
  /\ users (snd out) = users st.
Proof.
  intros Hu Hp Hsel Hok. cbn zeta. unfold loginUser.
  cbn [login_username login_password Js.truthy_opt str].
  rewrite Hu, Hp. cbn [negb orb]. rewrite Hsel, Hok.
  cbn [negb fst snd status body cookies validRefreshTokens users].
  repeat split.
  - apply RegistryFacts.record_valid.
  - intros t Ht. unfold Registry.isValid, Registry.record_token in *.
    rewrite JsFacts.includes_push, Ht. reflexivity.
Qed.

Lemma login_success_witness :
  let alice := {| user_id := 1; user_username := "alice";
                  user_email := "alice@x.com";
                  user_password := String "#" "Passw0rd";
                  user_role := "customer" |} in
  let st := {| validRefreshTokens := Js.mkArray [Some "earlier"] [];
               users := [alice] |} in
  let out := loginUser Plain.jwt Plain.bcrypt no_env st 100
               {| login_username := Some "alice@x.com";
                  login_password := Some "Passw0rd" |} in
  status (fst out) = 200
  /\ Registry.isValid (validRefreshTokens (snd out)) "earlier" = true.
Proof.
  intros alice st out.
  destruct (login_success Plain.jwt Plain.bcrypt no_env st 100
              "alice@x.com" "Passw0rd" alice []
              eq_refl eq_refl eq_refl eq_refl)
    as (H1 & _ & _ & _ & _ & _ & H7 & _).
  split; [exact H1|exact (H7 "earlier" eq_refl)].
Defined.

Module LoginFacts.


End LoginFacts.



(** X11.  The round of an expired access token.  Between the expiry of
    the access token and that of the refresh token of a pair: the auth
    gate answers the access token with 401 and [expired: true]; a refresh
    with the refresh token, when it is in the registry, answers 200 with a
    new access token; and the gate lets that one through, with the same
    claims. *)
Theorem expired_access_then_refresh
  (J : JwtLib) (env : Env) (st : Server) (p : Payload) (t now : Z) :
  jwt_roundtrip J ->
  let pair := createTokenPair J env t p in
  let fresh := createTokenPair J env now p in
  t + ACCESS_TOKEN_EXPIRES <= now -> now < t + REFRESH_TOKEN_EXPIRES ->
  Js.truthy (refreshToken pair) = true ->
  Registry.isValid (validRefreshTokens st) (refreshToken pair) = true ->
  spaceless (accessToken pair) = true -> Js.truthy (accessToken pair) = true ->
  spaceless (accessToken fresh) = true -> Js.truthy (accessToken fresh) = true ->
  (exists r,
      checkAuth J env now (Some (two_fields "Bearer" (accessToken pair)))
      = Respond r
      /\ status r = 401 /\ field "expired" (body r) = Some (JBool true))
  /\ status (fst (refreshAccessToken J env st now (Some (refreshToken pair))))
     = 200
  /\ field "accessToken"
       (body (fst (refreshAccessToken J env st now (Some (refreshToken pair)))))
     = Some (JStr (accessToken fresh))
  /\ checkAuth J env now (Some (two_fields "Bearer" (accessToken fresh)))
     = Next (Some {| claims := p; iat := now;
                     exp := now + ACCESS_TOKEN_EXPIRES |}).
Proof.
  intros HJ pair fresh Hlate Hlive Hrt Hin Hs1 Ht1 Hs2 Ht2.
  split; [|split; [|split]].
  - unfold checkAuth.
    rewrite (HeaderFacts.second_field_token "Bearer" _ eq_refl Hs1).
    cbn [Js.truthy_opt str]. rewrite Ht1. cbn [negb].
    unfold validateAccessToken. subst pair. cbn [createTokenPair accessToken].
    rewrite HJ.
    destruct (Z.ltb_spec now (t + ACCESS_TOKEN_EXPIRES)) as [H|_]; [lia|].
    eexists. repeat split.
  - unfold refreshAccessToken. cbn [Js.truthy_opt str]. rewrite Hrt, Hin.
    cbn [negb]. unfold validateRefreshToken. subst pair.
    cbn [createTokenPair refreshToken]. rewrite HJ.
    destruct (Z.ltb_spec now (t + REFRESH_TOKEN_EXPIRES)) as [_|H]; [|lia].
    reflexivity.
  - unfold refreshAccessToken. cbn [Js.truthy_opt str]. rewrite Hrt, Hin.
    cbn [negb]. unfold validateRefreshToken. subst pair.
    cbn [createTokenPair refreshToken]. rewrite HJ.
    destruct (Z.ltb_spec now (t + REFRESH_TOKEN_EXPIRES)) as [_|H]; [|lia].
    cbn [fst body claims]. rewrite payload_eta. reflexivity.
  - unfold checkAuth.
    rewrite (HeaderFacts.second_field_token "Bearer" _ eq_refl Hs2).
    cbn [Js.truthy_opt str]. rewrite Ht2. cbn [negb].
    unfold validateAccessToken. subst fresh. cbn [createTokenPair accessToken].
    rewrite HJ.
    destruct (Z.ltb_spec now (now + ACCESS_TOKEN_EXPIRES)) as [_|H];
      [reflexivity|unfold ACCESS_TOKEN_EXPIRES in H; lia].
Qed.

Lemma expired_access_then_refresh_witness :
  let p := {| id := Some 1; username := "alice"; email := "alice@x.com";
              role := "customer" |} in
  let pair := createTokenPair Plain.jwt no_env 100 p in
  let st := {| validRefreshTokens := Js.mkArray [Some (refreshToken pair)] [];
               users := [] |} in
  status (fst (refreshAccessToken Plain.jwt no_env st 2000
                 (Some (refreshToken pair)))) = 200.
Proof.
  intros p pair st.
  assert (Hlate : 100 + ACCESS_TOKEN_EXPIRES <= 2000) by (vm_compute; discriminate).
  assert (Hlive : 2000 < 100 + REFRESH_TOKEN_EXPIRES) by reflexivity.
  exact (proj1 (proj2
           (expired_access_then_refresh Plain.jwt no_env st p 100 2000
              PlainFacts.jwt_roundtrip_holds Hlate Hlive
              eq_refl eq_refl eq_refl eq_refl eq_refl eq_refl))).
Defined.

(** X12.  With the two variables of the environment set to two different
    non-empty secrets, and a library that rejects a token under another
    secret, neither token of a pair can stand in for the other: the auth
    gate answers the refresh token with 403, under any scheme, and refresh
    answers the access token with 403 and leaves the state alone, even when
    that token sits in the registry. *)
Theorem configured_secrets_isolate
  (J : JwtLib) (env : Env) (ka kr : string) (st : Server)
  (p : Payload) (t now : Z) :
  env "JWT_ACCESS_SECRET" = Some ka -> env "JWT_REFRESH_SECRET" = Some kr ->
  Js.truthy ka = true -> Js.truthy kr = true -> ka <> kr ->
  jwt_key_bound J ->
  let pair := createTokenPair J env t p in
  (forall scheme,
      spaceless scheme = true ->
      spaceless (refreshToken pair) = true ->
      Js.truthy (refreshToken pair) = true ->
      checkAuth J env now (Some (two_fields scheme (refreshToken pair)))
      = Respond (reply 403 "Invalid access token"))
  /\ (Js.truthy (accessToken pair) = true ->
      status (fst (refreshAccessToken J env st now (Some (accessToken pair))))
      = 403
      /\ snd (refreshAccessToken J env st now (Some (accessToken pair))) = st).
Proof.
  intros Ha Hr Hka Hkr Hne HJ pair.
  assert (Ea : ACCESS_TOKEN_SECRET env = ka).
  { unfold ACCESS_TOKEN_SECRET, Js.or_default. now rewrite Ha, Hka. }
  assert (Er : REFRESH_TOKEN_SECRET env = kr).
  { unfold REFRESH_TOKEN_SECRET, Js.or_default. now rewrite Hr, Hkr. }
  split.
  - intros scheme Hs Hsp Htr. unfold checkAuth.
    rewrite (HeaderFacts.second_field_token _ _ Hs Hsp).
    cbn [Js.truthy_opt str]. rewrite Htr. cbn [negb].
    unfold validateAccessToken. subst pair.
    cbn [createTokenPair refreshToken].
    rewrite HJ; [reflexivity|]. rewrite Ea, Er. congruence.
  - intros Htr. unfold refreshAccessToken. cbn [Js.truthy_opt str].
    rewrite Htr. cbn [negb].
    destruct (Registry.isValid (validRefreshTokens st) (accessToken pair));
      cbn [negb]; [|now split].
    unfold validateRefreshToken. subst pair.
    cbn [createTokenPair accessToken].
    rewrite HJ; [now split|]. rewrite Ea, Er. congruence.
Qed.

Lemma configured_secrets_isolate_witness :
  let env : Env :=
    fun k => if String.eqb k "JWT_ACCESS_SECRET" then Some "s-access"
             else if String.eqb k "JWT_REFRESH_SECRET" then Some "s-refresh"
             else None in
  let p := {| id := Some 1; username := "alice"; email := "alice@x.com";
              role := "customer" |} in
  let pair := createTokenPair Plain.jwt env 100 p in
  checkAuth Plain.jwt env 130 (Some (two_fields "Bearer" (refreshToken pair)))
  = Respond (reply 403 "Invalid access token").
Proof.
  intros env p pair.
  assert (Hne : "s-access" <> "s-refresh") by discriminate.
  exact (proj1 (configured_secrets_isolate Plain.jwt env "s-access" "s-refresh"
                  {| validRefreshTokens := Js.empty; users := [] |} p 100 130
                  eq_refl eq_refl eq_refl eq_refl Hne
                  PlainFacts.jwt_key_bound_holds)
           "Bearer" eq_refl eq_refl eq_refl).
Defined.

(* ================================================================== *)
(** ** The gates in front of the car and inquiry routes *)

(** X13.  The chain [authenticateToken, requireAdmin] lets a request
    through exactly when the auth gate does and the role in the claims is
    the string [admin]; it never goes on without a user, and what it
    answers otherwise is a 401 or a 403. *)
Theorem admin_chain_lets_admins_only
  (J : JwtLib) (env : Env) (now : Z) (authHeader : option string) :
  (forall u, admin_chain J env now authHeader = Next u ->
             exists d, u = Some d
                       /\ checkAuth J env now authHeader = Next (Some d)
                       /\ role (claims d) = "admin")
  /\ (forall d, checkAuth J env now authHeader = Next (Some d) ->
                role (claims d) = "admin" ->
                admin_chain J env now authHeader = Next (Some d))
  /\ (forall d, checkAuth J env now authHeader = Next (Some d) ->
                role (claims d) <> "admin" ->
                admin_chain J env now authHeader
                = Respond (reply 403 "Admin privileges required"))
  /\ (forall r, admin_chain J env now authHeader = Respond r ->
                status r = 401 \/ status r = 403).
Proof.
  unfold admin_chain, checkAuth, requireAdmin.
  destruct (negb (Js.truthy_opt (header_token authHeader))).
  - repeat split; try discriminate.
    intros r H. injection H as <-. now left.
  - destruct (validateAccessToken J env now (str (header_token authHeader)))
      as [[| |]|d].
    + repeat split; try discriminate.
      intros r H. injection H as <-. now left.
    + repeat split; try discriminate.
      intros r H. injection H as <-. now right.
    + repeat split; try discriminate.
      intros r H. injection H as <-. now right.
    + destruct (String.eqb_spec (role (claims d)) "admin") as [Hadm|Hno];
        cbn [negb].
      * split; [|split; [|split]].
        -- intros u H. injection H as <-. now exists d.
        -- intros d' H _. now injection H as <-.
        -- intros d' H Hr. injection H as <-. contradiction.
        -- discriminate.
      * split; [|split; [|split]].
        -- discriminate.
        -- intros d' H Hr. injection H as <-. contradiction.
        -- reflexivity.
        -- intros r H. injection H as <-. now right.
Qed.

Lemma admin_chain_lets_admins_only_witness :
  let customer := {| id := Some 2; username := "bob"; email := "bob@x.com";
                     role := "customer" |} in
  let token := accessToken (createTokenPair Plain.jwt no_env 100 customer) in
  admin_chain Plain.jwt no_env 130 (Some (two_fields "Bearer" token))
  = Respond (reply 403 "Admin privileges required").
Proof.
  intros customer token.
  destruct (admin_chain_lets_admins_only Plain.jwt no_env 130
              (Some (two_fields "Bearer" token))) as (_ & _ & H & _).
  apply (H {| claims := customer; iat := 100;
              exp := 100 + ACCESS_TOKEN_EXPIRES |}); [reflexivity|discriminate].
Defined.

(** The role is compared as a string: [Admin] is no admin. *)
Example admin_role_is_case_sensitive :
  let d := {| claims := {| id := Some 3; username := "eve"; email := "eve@x.com";
                           role := "Admin" |};
              iat := 0; exp := 900 |} in
  requireAdmin d = Respond (reply 403 "Admin privileges required").
Proof. reflexivity. Qed.

(** X14.  The optional gate never answers the request itself: it always
    goes on, with a user attached exactly when the required gate would let
    the same request through, and with the same user. *)
Theorem optionalAuth_never_rejects
  (J : JwtLib) (env : Env) (now : Z) (authHeader : option string) :
  exists u,
    optionalAuth J env now authHeader = Next u
    /\ (forall d, u = Some d <-> checkAuth J env now authHeader = Next (Some d))
    /\ (u = None <-> exists r, checkAuth J env now authHeader = Respond r).
Proof.
  unfold optionalAuth, checkAuth.
  destruct (negb (Js.truthy_opt (header_token authHeader))).
  - exists None. split; [reflexivity|]. split.
    + intro d. split; discriminate.
    + split; [eexists; reflexivity|reflexivity].
  - destruct (validateAccessToken J env now (str (header_token authHeader)))
      as [[| |]|d].
    + exists None. split; [reflexivity|]. split.
      * intro d. split; discriminate.
      * split; [eexists; reflexivity|reflexivity].
    + exists None. split; [reflexivity|]. split.
      * intro d. split; discriminate.
      * split; [eexists; reflexivity|reflexivity].
    + exists None. split; [reflexivity|]. split.
      * intro d. split; discriminate.
      * split; [eexists; reflexivity|reflexivity].
    + exists (Some d). split; [reflexivity|]. split.
      * intro d'. split; intro H; injection H as <-; reflexivity.
      * split; [discriminate|intros [r Hr]; discriminate].
Qed.

Lemma optionalAuth_never_rejects_witness :
  optionalAuth Plain.jwt no_env 130 (Some "Bearer junk") = Next None.
Proof.
  destruct (optionalAuth_never_rejects Plain.jwt no_env 130
              (Some "Bearer junk")) as (u & Hu & _ & Hnone).
  rewrite Hu. f_equal. apply Hnone. eexists. reflexivity.
Defined.

(** X15.  What the gate makes of longer headers.  Fields after the token
    are ignored: [scheme token more] is treated as [scheme token].  With
    two spaces after the scheme the second field is empty, and the request
    is answered 401 whatever follows. *)
Theorem checkAuth_header_fields
  (J : JwtLib) (env : Env) (now : Z) (scheme t more : string) :
  spaceless scheme = true -> spaceless t = true ->
  checkAuth J env now (Some (two_fields scheme (two_fields t more)))
  = checkAuth J env now (Some (two_fields scheme t))
  /\ checkAuth J env now (Some (two_fields scheme (two_fields "" more)))
     = Respond (reply 401 "Access token is required").
Proof.
  intros Hs Ht.
  assert (E1 : header_token (Some (two_fields scheme (two_fields t more)))
               = Some t).
  { unfold header_token, Js.at_index.
    rewrite HeaderFacts.two_fields_truthy.
    rewrite (HeaderFacts.split_two_fields _ _ Hs).
    now rewrite (HeaderFacts.split_two_fields _ _ Ht). }
  assert (E2 : header_token (Some (two_fields scheme (two_fields "" more)))
               = Some EmptyString).
  { unfold header_token, Js.at_index.
    rewrite HeaderFacts.two_fields_truthy.
    rewrite (HeaderFacts.split_two_fields _ _ Hs).
    now rewrite (HeaderFacts.split_two_fields "" more eq_refl). }
  split.
  - unfold checkAuth.
    now rewrite E1, (HeaderFacts.second_field_token _ _ Hs Ht).
  - unfold checkAuth. now rewrite E2.
Qed.

Lemma checkAuth_header_fields_witness :
  let alice := {| id := Some 1; username := "alice"; email := "alice@x.com";
                  role := "customer" |} in
  let token := accessToken (createTokenPair Plain.jwt no_env 100 alice) in
  checkAuth Plain.jwt no_env 130
    (Some (two_fields "Bearer" (two_fields "" token)))
  = Respond (reply 401 "Access token is required").
Proof.
  intros alice token.
  exact (proj2 (checkAuth_header_fields Plain.jwt no_env 130
                  "Bearer" "x" token eq_refl eq_refl)).
Defined.

(* ================================================================== *)
(** ** The validation in front of the auth handlers *)

(** X16.  A registration that breaks one of the rules of the route (a
    username that is not 3 to 50 word characters, an address [isEmail]
    refuses, a password shorter than 6 or without a lower-case letter, an
    upper-case letter and a digit, a role that is neither [admin] nor
    [customer]) is answered 400 and never reaches the controller: no user,
    no token, no cookie. *)
Theorem invalid_registration_rejected
  (J : JwtLib) (B : BcryptLib) (V : ValidatorLib) (D : Database) (env : Env)
  (st : Server) (now : Z) (b : RegisterBody) :
  Validator.isLength 3 (Some 50%nat) (str (reg_username b)) = false
  \/ Validator.matches_word (str (reg_username b)) = false
  \/ isEmail V (str (reg_email b)) = false
  \/ Validator.isLength 6 None (str (reg_password b)) = false
  \/ Validator.matches_password (str (reg_password b)) = false
  \/ (exists r, reg_role b = Some r /\ r <> "admin" /\ r <> "customer") ->
  let out := post_register J B V D env st now b in
  status (fst out) = 400
  /\ field "message" (body (fst out)) = Some (JStr "Validation failed")
  /\ field "errors" (body (fst out))
     = Some (JArr (map error_json (fst (validateRegistration V b))))
  /\ cookies (fst out) = []
  /\ snd out = st.
Proof.
  intros Hbad. cbn zeta. unfold post_register.
  destruct (validateRegistration V b) as [errors b'] eqn:Hval.
  assert (Herr : fst (validateRegistration V b) = errors) by now rewrite Hval.
  destruct errors as [|e errors].
  - exfalso.
    destruct (ValidationFacts.passed V b Herr)
      as (H1 & H2 & H3 & H4 & H5 & H6).
    destruct Hbad as [H|[H|[H|[H|[H|(r & Hr & Ha & Hc)]]]]]; try congruence.
    rewrite Hr in H6. destruct H6; contradiction.
  - cbn [checkValidationErrors fst snd status body cookies].
    repeat split.
Qed.

Lemma invalid_registration_rejected_witness :
  let st := {| validRefreshTokens := Js.empty; users := [] |} in
  let b := {| reg_username := Some "mallory"; reg_email := Some "m@x.org";
              reg_password := Some "Secret1"; reg_role := Some "root" |} in
  status (fst (post_register Plain.jwt Plain.bcrypt Plain.validator
                 Plain.database no_env st 100 b)) = 400.
Proof.
  intros st b.
  apply (invalid_registration_rejected Plain.jwt Plain.bcrypt Plain.validator
           Plain.database no_env st 100 b).
  do 5 right. exists "root". repeat split; discriminate.
Defined.

Module TrimFacts.
Import Sanitizer.

Lemma ltrim_length (s : string) :
  (String.length (ltrim s) <= String.length s)%nat.
Proof.
  induction s as [|c r IH]; simpl; [lia|].
  destruct (whitespace c); simpl; lia.
Qed.

Lemma ltrim_pad (pad s : string) :
  Validator.all whitespace pad = true -> ltrim (pad ++ s) = ltrim s.
Proof.
  induction pad as [|c r IH]; simpl; intro H; [reflexivity|].
  apply andb_true_iff in H. destruct H as [Hc Hr]. rewrite Hc. now apply IH.
Qed.

Lemma ltrim_fixed_app (core x : string) :
  ltrim core = core -> Js.truthy core = true -> ltrim (core ++ x) = core ++ x.
Proof.
  destruct core as [|c r]; simpl; intros H Ht; [discriminate|].
  destruct (whitespace c); [|reflexivity].
  exfalso. pose proof (ltrim_length r) as L. rewrite H in L. simpl in L. lia.
Qed.

Lemma rtrim_blank (pad : string) :
  Validator.all whitespace pad = true -> rtrim pad = EmptyString.
Proof.
  induction pad as [|c r IH]; simpl; intro H; [reflexivity|].
  apply andb_true_iff in H. destruct H as [Hc Hr].
  now rewrite (IH Hr), Hc.
Qed.

Lemma rtrim_pad (s pad : string) :
  Validator.all whitespace pad = true -> rtrim (s ++ pad) = rtrim s.
Proof.
  intro H. induction s as [|c r IH]; simpl.
  - now apply rtrim_blank.
  - now rewrite IH.
Qed.

Lemma trim_padded (pad core pad' : string) :
  Validator.all whitespace pad = true ->
  Validator.all whitespace pad' = true ->
  ltrim core = core -> rtrim core = core -> Js.truthy core = true ->
  trim (pad ++ core ++ pad') = core.
Proof.
  intros Hp Hp' Hl Hr Ht. unfold trim.
  rewrite (ltrim_pad _ _ Hp), (ltrim_fixed_app _ _ Hl Ht).
  now rewrite (rtrim_pad _ _ Hp').
Qed.

Lemma trim_blank (pad : string) :
  Validator.all whitespace pad = true -> trim pad = EmptyString.
Proof.
  intro H. unfold trim.
  replace pad with (pad ++ EmptyString) at 1.
  - now rewrite (ltrim_pad _ _ H).
  - clear H. induction pad as [|c r IH]; simpl; [reflexivity|now rewrite IH].
Qed.

Lemma truthy_app_r (a b : string) :
  Js.truthy b = true -> Js.truthy (a ++ b) = true.
Proof. destruct a; simpl; [now intros ->|reflexivity]. Qed.

Lemma truthy_app_l (a b : string) :
  Js.truthy a = true -> Js.truthy (a ++ b) = true.
Proof. destruct a; simpl; [discriminate|reflexivity]. Qed.

End TrimFacts.

(** X17.  The login route trims the username and nothing else.  White
    space around a username is dropped before the lookup, so the padded
    request is handled as the bare one.  A username of white space only
    passes the validation of the route, which sees it before the trim, and
    is then answered 400 by the controller; a missing or empty username or
    password is answered 400 by the validation.  None of the three changes
    the state. *)
Theorem login_route_trims_the_username
  (J : JwtLib) (B : BcryptLib) (env : Env) (st : Server) (now : Z)
  (pad core pad' p : string) :
  Validator.all Sanitizer.whitespace pad = true ->
  Validator.all Sanitizer.whitespace pad' = true ->
  Js.truthy p = true ->
  (Sanitizer.ltrim core = core -> Sanitizer.rtrim core = core ->
   Js.truthy core = true ->
   post_login J B env st now
     {| login_username := Some (pad ++ core ++ pad');
        login_password := Some p |}
   = loginUser J B env st now
       {| login_username := Some core; login_password := Some p |})
  /\ (Js.truthy pad = true ->
      post_login J B env st now
        {| login_username := Some pad; login_password := Some p |}
      = (reply 400 "Username and password required", st))
  /\ (forall u, Js.truthy_opt u = false ->
      status (fst (post_login J B env st now
                     {| login_username := u; login_password := Some p |}))
      = 400
      /\ field "message"
           (body (fst (post_login J B env st now
                         {| login_username := u; login_password := Some p |})))
         = Some (JStr "Validation failed")
      /\ snd (post_login J B env st now
                {| login_username := u; login_password := Some p |}) = st).
Proof.
  intros Hp Hp' Hpw. split; [|split].
  - intros Hl Hr Hc. unfold post_login, validateLogin, Sanitizer.notEmpty.
    cbn [login_username login_password str].
    rewrite (TrimFacts.truthy_app_r pad _ (TrimFacts.truthy_app_l core pad' Hc)).
    rewrite Hpw. cbn [Validator.check app checkValidationErrors].
    now rewrite (TrimFacts.trim_padded _ _ _ Hp Hp' Hl Hr Hc).
  - intros Ht. unfold post_login, validateLogin, Sanitizer.notEmpty.
    cbn [login_username login_password str]. rewrite Ht, Hpw.
    cbn [Validator.check app checkValidationErrors].
    rewrite (TrimFacts.trim_blank _ Hp). reflexivity.
  - intros u Hu. unfold post_login, validateLogin, Sanitizer.notEmpty.
    cbn [login_username login_password str].
    assert (E : Js.truthy (str u) = false) by (destruct u; [exact Hu|reflexivity]).
    rewrite E, Hpw. cbn [Validator.check app checkValidationErrors].
    cbn [fst snd status body]. now repeat split.
Qed.

Lemma login_route_trims_the_username_witness :
  let alice := {| user_id := 1; user_username := "alice";
                  user_email := "alice@x.com";
                  user_password := String "#" "Passw0rd";
                  user_role := "customer" |} in
  let st := {| validRefreshTokens := Js.empty; users := [alice] |} in
  status (fst (post_login Plain.jwt Plain.bcrypt no_env st 100
                 {| login_username := Some "  alice ";
                    login_password := Some "Passw0rd" |})) = 200
  /\ post_login Plain.jwt Plain.bcrypt no_env st 100
       {| login_username := Some "   "; login_password := Some "Passw0rd" |}
     = (reply 400 "Username and password required", st).
Proof.
  intros alice st.
  destruct (login_route_trims_the_username Plain.jwt Plain.bcrypt no_env st 100
              "  " "alice" " " "Passw0rd" eq_refl eq_refl eq_refl)
    as (H1 & _ & _).
  destruct (login_route_trims_the_username Plain.jwt Plain.bcrypt no_env st 100
              "   " "" "" "Passw0rd" eq_refl eq_refl eq_refl)
    as (_ & H2 & _).
  split; [|exact (H2 eq_refl)].
  change (Some "  alice ") with (Some ("  " ++ "alice" ++ " ")).
  now rewrite (H1 eq_refl eq_refl eq_refl).
Defined.

(* ================================================================== *)
(** ** The statements of the list routes *)

Module SqlFacts.
Import Sql.

Lemma placeholders_app (a b : string) :
  placeholders (a ++ b) = (placeholders a + placeholders b)%nat.
Proof.
  induction a as [|c r IH]; simpl; [reflexivity|].
  destruct (Ascii.eqb c "?"); simpl; now rewrite IH.
Qed.

Lemma balanced_filter_on (cond : bool) (clause : string) (param : Param)
  (acc : string * list Param) :
  placeholders clause = 1%nat -> balanced acc ->
  balanced (filter_on cond clause param acc).
Proof.
  unfold balanced, filter_on. intros Hc Hacc.
  destruct cond; [|exact Hacc]. simpl.
  rewrite placeholders_app, length_app, Hc, Hacc. reflexivity.
Qed.

Lemma fst_filter_on (cond : bool) (clause : string) (param : Param)
  (acc : string * list Param) :
  fst (filter_on cond clause param acc)
  = if cond then fst acc ++ clause else fst acc.
Proof. unfold filter_on. now destruct cond. Qed.

Lemma cars_where_balanced (f : CarFilters) : balanced (Cars.whereConditions f).
Proof.
  unfold Cars.whereConditions.
  repeat (apply balanced_filter_on; [reflexivity|]).
  reflexivity.
Qed.

Lemma mine_where_balanced (userId : option Z) (status : option string) :
  balanced (Inquiries.mine_where userId status).
Proof.
  unfold Inquiries.mine_where.
  apply balanced_filter_on; reflexivity.
Qed.

Lemma all_where_balanced (status userId : option string) :
  balanced (Inquiries.all_where status userId).
Proof.
  unfold Inquiries.all_where.
  repeat (apply balanced_filter_on; [reflexivity|]).
  reflexivity.
Qed.

End SqlFacts.

(** X18.  Whatever filters [GET /api/cars] is called with, each of its
    two statements has as many [?] as the list bound to it has values. *)
Theorem cars_statements_balanced (f : CarFilters) (limit offset : Sql.Param) :
  balanced (Cars.countSQL f) /\ balanced (Cars.carsSQL f limit offset).
Proof.
  pose proof (SqlFacts.cars_where_balanced f) as H. unfold balanced in *.
  unfold Cars.countSQL, Cars.carsSQL. cbn [fst snd].
  rewrite !SqlFacts.placeholders_app, length_app, H.
  split; simpl; lia.
Qed.

(** X19.  The text of the statements of [GET /api/cars] depends on which
    filters are present and on nothing else: the values of the filters,
    the page and the limit reach the database through the bound list only,
    never as part of the statement. *)
Theorem cars_statements_text_is_fixed
  (f g : CarFilters) (limit offset limit' offset' : Sql.Param) :
  Cars.same_shape f g ->
  fst (Cars.countSQL f) = fst (Cars.countSQL g)
  /\ fst (Cars.carsSQL f limit offset) = fst (Cars.carsSQL g limit' offset')
  /\ List.length (snd (Cars.carsSQL f limit offset))
     = List.length (snd (Cars.carsSQL g limit' offset')).
Proof.
  intros (Ha & Hmk & Hmd & Hlo & Hhi & Hfu & Htr).
  assert (E : fst (Cars.whereConditions f) = fst (Cars.whereConditions g)).
  { unfold Cars.whereConditions. cbn zeta.
    rewrite !SqlFacts.fst_filter_on.
    now rewrite Ha, Hmk, Hmd, Hlo, Hhi, Hfu, Htr. }
  split; [|split].
  - unfold Cars.countSQL. cbn [fst]. now rewrite E.
  - unfold Cars.carsSQL. cbn [fst]. now rewrite E.
  - pose proof (SqlFacts.cars_where_balanced f) as Hf.
    pose proof (SqlFacts.cars_where_balanced g) as Hg.
    unfold balanced in Hf, Hg. unfold Cars.carsSQL. cbn [snd].
    rewrite !length_app, <- Hf, <- Hg, E. reflexivity.
Qed.

Lemma cars_statements_text_is_fixed_witness :
  let f := {| f_make := Some "Audi"; f_model := None; f_minPrice := None;
              f_maxPrice := None; f_fuelType := None; f_transmission := None;
              f_available := None |} in
  let g := {| f_make := Some "x' OR 1=1 --"; f_model := None;
              f_minPrice := None; f_maxPrice := None; f_fuelType := None;
              f_transmission := None; f_available := Some "true" |} in
  fst (Cars.countSQL f) = fst (Cars.countSQL g).
Proof.
  intros f g.
  apply (cars_statements_text_is_fixed f g (Sql.PInt 10) (Sql.PInt 0)
           (Sql.PInt 10) (Sql.PInt 0)).
  repeat split.
Defined.

(** X20.  The statements of the inquiry routes ([GET /api/inquiries],
    [GET /api/inquiries/admin/all], [GET /api/inquiries/:id]) have as many
    [?] as values bound, for every status, user filter, id and caller. *)
Theorem inquiry_statements_balanced
  (userId : option Z) (status filterUser : option string) (id_ : string)
  (user : Decoded) (limit offset : Sql.Param) :
  balanced (Inquiries.mine_count userId status)
  /\ balanced (Inquiries.mine_page userId status limit offset)
  /\ balanced (Inquiries.all_count status filterUser)
  /\ balanced (Inquiries.all_page status filterUser limit offset)
  /\ balanced (Inquiries.one id_ user).
Proof.
  pose proof (SqlFacts.mine_where_balanced userId status) as Hm.
  pose proof (SqlFacts.all_where_balanced status filterUser) as Ha.
  unfold balanced in *.
  unfold Inquiries.mine_count, Inquiries.mine_page, Inquiries.all_count,
    Inquiries.all_page.
  cbn [fst snd].
  rewrite !SqlFacts.placeholders_app, !length_app, Hm, Ha.
  repeat split; try (simpl; lia).
  unfold Inquiries.one.
  apply SqlFacts.balanced_filter_on; [reflexivity|].
  unfold balanced. cbn [fst snd]. rewrite !SqlFacts.placeholders_app.
  reflexivity.
Qed.


(* ================================================================== *)
(** ** Two more runs *)

Module Runs.

(** The entry of [errors] for a role that is not on the list. *)
Example invalid_role_error_entry :
  let st := {| validRefreshTokens := Js.empty; users := [] |} in
  let b := {| reg_username := Some "mallory"; reg_email := Some "m@x.org";
              reg_password := Some "Secret1"; reg_role := Some "root" |} in
  field "errors"
    (body (fst (post_register Plain.jwt Plain.bcrypt Plain.validator
                  Plain.database no_env st 100 b)))
  = Some (JArr [JObj [("type", JStr "field"); ("value", JStr "root");
                      ("msg", JStr "Role must be admin or customer");
                      ("path", JStr "role"); ("location", JStr "body")]]).
Proof. reflexivity. Qed.

(** Behind the [executeQuery] that hands the recordset back as it is, with
    a driver that gives none for an [INSERT]: the row goes in, and the
    answer is 500, without token and without cookie. *)
Example registration_behind_recordset_as_is :
  let st := {| validRefreshTokens := Js.empty; users := [] |} in
  let b := {| reg_username := Some "bob"; reg_email := Some "bob@y.org";
              reg_password := Some "Secret1"; reg_role := Some "admin" |} in
  let out := registerUser Plain.jwt Plain.bcrypt Plain.database_as_is no_env
               st 100 b in
  fst out = reply 500 "Registration failed. Please try again."
  /\ map user_username (users (snd out)) = ["bob"]
  /\ map user_role (users (snd out)) = ["admin"]
  /\ validRefreshTokens (snd out) = Js.empty.
Proof. repeat split. Qed.

(** Behind the one that hands back [recordset || []]: 201, and a user
    object without id. *)
Example registration_behind_recordset_or_empty :
  let st := {| validRefreshTokens := Js.empty; users := [] |} in
  let b := {| reg_username := Some "bob"; reg_email := Some "bob@y.org";
              reg_password := Some "Secret1"; reg_role := None |} in
  let out := registerUser Plain.jwt Plain.bcrypt Plain.database no_env
               st 100 b in
  status (fst out) = 201
  /\ field "user" (body (fst out))
     = Some (JObj [("username", JStr "bob"); ("email", JStr "bob@y.org");
                   ("role", JStr "customer")]).
Proof. repeat split. Qed.

End Runs.
